(** * Verification of the maze simulator's wall interface and view transforms

    Two components of the simulator are embedded here:

    - [MazeInterface] (src/sim/MazeInterface.cpp): the bounds- and
      key-checked wall mutation that maze-generation code calls;
    - [TransformationMatrix] (src/sim/TransformationMatrix.cpp): the 4x4
      matrices that take physical coordinates to OpenGL coordinates.

    Each definition follows the C++ function of the same name. *)

From Stdlib Require Import ZArith Reals Lra Lia String Ascii DecimalString.
From stdpp Require Import base list gmap strings.

(** ** Abnormal termination

    [std::vector::at] throws [std::out_of_range], and a failed [ASSERT_EQ]
    stops the process; nothing in the two files catches either, so a call
    that meets one leaves through [Threw]. *)

Inductive exception : Set := out_of_range | failed_assertion.

Inductive outcome (A : Type) : Type :=
  | Returned (a : A)
  | Threw (e : exception).
Arguments Returned {A} a.
Arguments Threw {A} e.

#[global] Instance outcome_ret : MRet outcome := fun A a => Returned a.
#[global] Instance outcome_bind : MBind outcome := fun A B f m =>
  match m with
  | Returned a => f a
  | Threw e => Threw e
  end.

Module MazeInterface.
Local Open Scope Z_scope.

(** [int] is 32 bits wide, [size_t] 64 bits; a conversion between them keeps
    the value modulo the width of the target. *)
Definition to_int (z : Z) : Z := (z + 2 ^ 31) mod 2 ^ 32 - 2 ^ 31.
Definition to_size_t (z : Z) : Z := z mod 2 ^ 64.

(** [std::to_string(int)]: decimal digits, with a leading minus sign. *)
Definition to_string (n : Z) : string := NilZero.string_of_int (Z.to_int n).

(** The position an [int] index designates once converted to [size_t]. *)
Definition index (n : Z) : nat := Z.to_nat (to_size_t n).

(** [std::vector<T>::at(n)] *)
Definition at_ {A : Type} (v : list A) (n : Z) : outcome A :=
  match v !! index n with
  | Some a => Returned a
  | None => Threw out_of_range
  end.

Section Interface.
(** The [Direction] enumeration and the table [CHAR_TO_DIRECTION]
    (a [std::map<char, Direction>]) are declared outside the two source
    files; the interface is verified for every such enumeration and
    every table. *)
Context {Direction : Type} `{EqDecision Direction}.
Variable CHAR_TO_DIRECTION : gmap ascii Direction.

(** Modelled from the spec: the declaration of [BasicTile] is not among
    the sources. The spec's tile is a wall-presence record with one boolean
    per direction, a mapping from [Direction] to "wall present". *)
Record BasicTile : Type := { walls : Direction -> bool }.

(** [tile.walls.at(d) = wallExists] *)
Definition walls_assign (tile : BasicTile) (d : Direction) (wallExists : bool)
  : BasicTile :=
  {| walls := fun d' => if decide (d' = d) then wallExists else walls tile d' |}.

(** The interface holds a pointer [m_basicMaze] to a grid it does not own,
    a [std::vector<std::vector<BasicTile>>] indexed [x] then [y].
    Modelled from the spec: [SimUtilities::print] is not among the
    sources; it hands one message to the process-wide diagnostic sink,
    kept here as the list of messages printed so far. *)
Record sim : Type := {
  m_basicMaze : list (list BasicTile);
  printed : list string
}.

Definition print (message : string) (s : sim) : sim :=
  {| m_basicMaze := m_basicMaze s; printed := printed s ++ [message] |}.

(** [int MazeInterface::getWidth()] *)
Definition getWidth (s : sim) : Z :=
  to_int (Z.of_nat (length (m_basicMaze s))).

(** [int MazeInterface::getHeight()]: the guard [size() > 0] makes the
    access [at(0)] succeed, so the function never throws. *)
Definition getHeight (s : sim) : Z :=
  match m_basicMaze s with
  | column :: _ => to_int (Z.of_nat (length column))
  | [] => 0
  end.

(** The two diagnostics, as [setWall] concatenates them. *)
Definition out_of_bounds_message (s : sim) (x y : Z) : string :=
  ("Error: The generated maze width and height values are "
   +:+ to_string (getWidth s) +:+ " and " +:+ to_string (getHeight s)
   +:+ ", respectively."
   +:+ "There is no tile at position (" +:+ to_string x +:+ ", "
   +:+ to_string y +:+ "), and thus you cannot set its wall value.")%string.

Definition unknown_direction_message (direction : ascii) : string :=
  ("Error: The character '" +:+ String direction EmptyString
   +:+ "' is not mapped to a valid direction.")%string.

(** [void MazeInterface::setWall(int x, int y, char direction, bool wallExists)] *)
Definition setWall (x y : Z) (direction : ascii) (wallExists : bool) (s : sim)
  : outcome sim :=
  if (x <? 0) || (getWidth s <=? x) || (y <? 0) || (getHeight s <=? y) then
    Returned (print (out_of_bounds_message s x y) s)
  else
    match CHAR_TO_DIRECTION !! direction with
    | None => Returned (print (unknown_direction_message direction) s)
    | Some d =>
        column ← at_ (m_basicMaze s) x;
        tile ← at_ column y;
        Returned
          {| m_basicMaze :=
               <[index x := <[index y := walls_assign tile d wallExists]> column]>
                 (m_basicMaze s);
             printed := printed s |}
    end.

(** *** Reading the grid back *)

(** The tile at [(x, y)], when the grid has one. *)
Definition tileAt (s : sim) (x y : nat) : option BasicTile :=
  column ← m_basicMaze s !! x; column !! y.

(** The wall flag a reader of the grid sees for [(x, y, d)]. *)
Definition wallAt (s : sim) (x y : nat) (d : Direction) : option bool :=
  tile ← tileAt s x y; Some (walls tile d).

(** A grid is rectangular when every column is as long as the first. *)
Definition rectangular (s : sim) : Prop :=
  match m_basicMaze s with
  | column :: _ => Forall (fun c => length c = length column) (m_basicMaze s)
  | [] => True
  end.

(** [s] occurs inside [t]. *)
Definition includes (s t : string) : Prop :=
  exists before after, t = (before +:+ s +:+ after)%string.

End Interface.

(** A concrete enumeration and table, used to run the interface on examples:
    the four compass directions and one character code for each. *)
Inductive Compass : Set := NORTH | EAST | SOUTH | WEST.

#[global] Instance Compass_eq_dec : EqDecision Compass.
Proof. solve_decision. Defined.

Definition compass_codes : gmap ascii Compass :=
  <["n"%char := NORTH]> (<["e"%char := EAST]> (<["s"%char := SOUTH]>
    (<["w"%char := WEST]> ∅))).

Definition open_tile : BasicTile (Direction := Compass) :=
  {| walls := fun _ => false |}.

(** A 2 x 3 maze without walls, and a ragged grid whose second column is
    shorter than its first. *)
Definition small_maze : sim (Direction := Compass) :=
  {| m_basicMaze := [[open_tile; open_tile; open_tile];
                     [open_tile; open_tile; open_tile]];
     printed := [] |}.

Definition ragged_maze : sim (Direction := Compass) :=
  {| m_basicMaze := [[open_tile; open_tile; open_tile]; [open_tile]];
     printed := [] |}.

End MazeInterface.

Module TransformationMatrix.
Local Open Scope R_scope.

(** ** Floating-point values

    A [double] or [float] is a real number or one of the three values that
    are not numbers of the real line. Arithmetic is exact: rounding and
    overflow are not modelled, the two precisions are not told apart, and a
    zero carries no sign (a division by zero takes its sign from the
    dividend). What is kept is what a division by zero does. *)
Inductive fp : Type :=
  | fin (r : R)
  | pinf
  | ninf
  | nan.

Definition fneg (a : fp) : fp :=
  match a with
  | fin x => fin (- x)
  | pinf => ninf
  | ninf => pinf
  | nan => nan
  end.

(** An infinity of the sign of [x]; no value when [x] is zero. *)
Definition inf_of_sign (x : R) : fp :=
  if Rlt_dec 0 x then pinf else if Rlt_dec x 0 then ninf else nan.

Definition fadd (a b : fp) : fp :=
  match a, b with
  | fin x, fin y => fin (x + y)
  | nan, _ | _, nan => nan
  | pinf, ninf | ninf, pinf => nan
  | pinf, _ | _, pinf => pinf
  | ninf, _ | _, ninf => ninf
  end.

Definition fsub (a b : fp) : fp := fadd a (fneg b).

Definition fmul (a b : fp) : fp :=
  match a, b with
  | fin x, fin y => fin (x * y)
  | nan, _ | _, nan => nan
  | fin x, pinf | pinf, fin x => inf_of_sign x
  | fin x, ninf | ninf, fin x => inf_of_sign (- x)
  | pinf, pinf | ninf, ninf => pinf
  | pinf, ninf | ninf, pinf => ninf
  end.

Definition fdiv (a b : fp) : fp :=
  match a, b with
  | fin x, fin y => if Req_dec_T y 0 then inf_of_sign x else fin (x / y)
  | nan, _ | _, nan => nan
  | fin _, _ => fin 0
  | pinf, fin y => if Rlt_dec y 0 then ninf else pinf
  | ninf, fin y => if Rlt_dec y 0 then pinf else ninf
  | _, _ => nan
  end.

(** [a < b]; every comparison with [nan] is false. *)
Definition flt (a b : fp) : bool :=
  match a, b with
  | fin x, fin y => if Rlt_dec x y then true else false
  | nan, _ | _, nan => false
  | _, ninf => false
  | ninf, _ => true
  | pinf, _ => false
  | fin _, pinf => true
  end.

(** [std::min(a, b)] is [(b < a) ? b : a]. *)
Definition std_min (a b : fp) : fp := if flt b a then b else a.

Definition std_cos (a : fp) : fp :=
  match a with fin x => fin (cos x) | _ => nan end.

Definition std_sin (a : fp) : fp :=
  match a with fin x => fin (sin x) | _ => nan end.

(** The conversion of an [int] to [double]. *)
Definition of_int (n : Z) : fp := fin (IZR n).

(** [static_cast<float>(x)]: single precision is not told apart from double
    precision. *)
Definition static_cast_float (x : fp) : fp := x.

Declare Scope fp_scope.
Delimit Scope fp_scope with fp.
Bind Scope fp_scope with fp.
Infix "+" := fadd : fp_scope.
Infix "-" := fsub : fp_scope.
Infix "*" := fmul : fp_scope.
Infix "/" := fdiv : fp_scope.
Notation "- x" := (fneg x) : fp_scope.

(** ** Unit types

    Modelled from the spec: the classes [Distance], [Coordinate],
    [Cartesian], [Angle] and [Degrees] are not among the sources. The spec
    treats them as opaque numeric units with meter, degree and radian
    conversions: a distance is a number of meters, a coordinate a pair of
    distances, an angle a number of radians. *)
Record Distance : Type := Meters { getMeters : R }.

Record Coordinate : Type := Cartesian { getX : Distance; getY : Distance }.

(** [Cartesian(a) - b] *)
Definition Coordinate_minus (a b : Coordinate) : Coordinate :=
  Cartesian (Meters (getMeters (getX a) - getMeters (getX b)))
            (Meters (getMeters (getY a) - getMeters (getY b))).

Record Angle : Type := Radians { getRadians : R }.

Definition Degrees (degrees : R) : Angle := Radians (degrees * PI / 180).

(** [Degrees(a) - Degrees(b)] *)
Definition Angle_minus (a b : Angle) : Angle :=
  Radians (getRadians a - getRadians b).

(** Modelled from the spec: [normalize_0_to_2pi], the angle brought into
    [0, 2 pi) by a whole number of turns. *)
Definition getRadiansZeroTo2pi (a : Angle) : R :=
  getRadians a - IZR (Int_part (getRadians a / (2 * PI))) * (2 * PI).

(** ** Matrices *)

(** Modelled from the spec: the macro [ASSERT_EQ] is not among the sources;
    an assertion that fails is fatal. *)
Definition ASSERT_EQ (a b : nat) : outcome unit :=
  if decide (a = b) then Returned tt else Threw failed_assertion.

(** [QVector<T>::at(i)] asserts that [i] is a position of the vector. *)
Definition at_ {A : Type} (v : list A) (i : nat) : outcome A :=
  match v !! i with
  | Some a => Returned a
  | None => Threw failed_assertion
  end.

(** [for (int i = first; i < first + count; i++) body], over a state. *)
Fixpoint for_ {S : Type} (count : nat) (i : nat)
    (body : nat -> S -> outcome S) (s : S) : outcome S :=
  match count with
  | O => Returned s
  | Datatypes.S count' => s' ← body i s; for_ count' (i + 1)%nat body s'
  end.

(** [QVector<float> TransformationMatrix::multiply4x4Matrices(left, right)] *)
Definition multiply4x4Matrices (left right : list fp) : outcome (list fp) :=
  _ ← ASSERT_EQ (length left) 16;
  _ ← ASSERT_EQ (length right) 16;
  result ← for_ 4 0 (fun i result =>
    for_ 4 0 (fun j result =>
      value ← for_ 4 0 (fun k value =>
        l ← at_ left (4 * i + k);
        r ← at_ right (4 * k + j);
        Returned (value + l * r)%fp) (fin 0);
      Returned (result ++ [static_cast_float value])) result) [];
  _ ← ASSERT_EQ (length result) 16;
  Returned result.

(** The sixteen sums that the three loops accumulate when both vectors have
    sixteen elements, entry by entry ([multiply4x4Matrices_unrolled]). *)
Definition unrolled_product (left right : list fp) : list fp :=
  i ← [0; 1; 2; 3]%nat;
  j ← [0; 1; 2; 3]%nat;
  [(fin 0 + nth (4 * i) left nan * nth j right nan
    + nth (4 * i + 1) left nan * nth (4 + j) right nan
    + nth (4 * i + 2) left nan * nth (8 + j) right nan
    + nth (4 * i + 3) left nan * nth (12 + j) right nan)%fp].

(** [QPair<double, double> TransformationMatrix::mapPixelCoordinateToOpenGlCoordinate] *)
Definition mapPixelCoordinateToOpenGlCoordinate
    (coordinate : fp * fp) (windowSize : Z * Z) : fp * fp :=
  ((fin 2 * coordinate.1 / of_int windowSize.1 - fin 1)%fp,
   (fin 2 * coordinate.2 / of_int windowSize.2 - fin 1)%fp).

(** [QVector<float> TransformationMatrix::getFullMapTransformationMatrix].
    The arguments of type [double], here and below, are numbers; a value that
    is not a number arises only inside, from a division by zero. *)
Definition getFullMapTransformationMatrix
    (wallWidth : Distance)
    (physicalMazeSize : R * R)
    (fullMapPosition fullMapSize windowSize : Z * Z) : outcome (list fp) :=
  let initialTranslationMatrix := [
    fin 1; fin 0; fin 0; static_cast_float (fin 0.5 * fin (getMeters wallWidth))%fp;
    fin 0; fin 1; fin 0; static_cast_float (fin 0.5 * fin (getMeters wallWidth))%fp;
    fin 0; fin 0; fin 1; fin 0;
    fin 0; fin 0; fin 0; fin 1
  ] in
  let physicalWidth := fin physicalMazeSize.1 in
  let physicalHeight := fin physicalMazeSize.2 in
  let pixelsPerMeter :=
    std_min (of_int fullMapSize.1 / physicalWidth)%fp
            (of_int fullMapSize.2 / physicalHeight)%fp in
  let pixelWidth := (pixelsPerMeter * physicalWidth)%fp in
  let pixelHeight := (pixelsPerMeter * physicalHeight)%fp in
  let openGlOrigin :=
    mapPixelCoordinateToOpenGlCoordinate (of_int 0, of_int 0) windowSize in
  let openGlMazeSize :=
    mapPixelCoordinateToOpenGlCoordinate (pixelWidth, pixelHeight) windowSize in
  let openGlWidth := (openGlMazeSize.1 - openGlOrigin.1)%fp in
  let openGlHeight := (openGlMazeSize.2 - openGlOrigin.2)%fp in
  let horizontalScaling := (openGlWidth / physicalWidth)%fp in
  let verticalScaling := (openGlHeight / physicalHeight)%fp in
  let scalingMatrix := [
    static_cast_float horizontalScaling; fin 0; fin 0; fin 0;
    fin 0; static_cast_float verticalScaling; fin 0; fin 0;
    fin 0; fin 0; fin 1; fin 0;
    fin 0; fin 0; fin 0; fin 1
  ] in
  let pixelLowerLeftCornerX :=
    (of_int fullMapPosition.1 + fin 0.5 * (of_int fullMapSize.1 - pixelWidth))%fp in
  let pixelLowerLeftCornerY :=
    (of_int fullMapPosition.2 + fin 0.5 * (of_int fullMapSize.2 - pixelHeight))%fp in
  let openGlLowerLeftCorner :=
    mapPixelCoordinateToOpenGlCoordinate
      (pixelLowerLeftCornerX, pixelLowerLeftCornerY) windowSize in
  let translationMatrix := [
    fin 1; fin 0; fin 0; static_cast_float openGlLowerLeftCorner.1;
    fin 0; fin 1; fin 0; static_cast_float openGlLowerLeftCorner.2;
    fin 0; fin 0; fin 1; fin 0;
    fin 0; fin 0; fin 0; fin 1
  ] in
  inner ← multiply4x4Matrices scalingMatrix initialTranslationMatrix;
  transformationMatrix ← multiply4x4Matrices translationMatrix inner;
  Returned transformationMatrix.

(** [QVector<float> TransformationMatrix::getZoomedMapTransformationMatrix] *)
Definition getZoomedMapTransformationMatrix
    (physicalMazeSize : R * R)
    (zoomedMapPosition zoomedMapSize windowSize : Z * Z)
    (screenPixelsPerMeter zoomedMapScale : R)
    (rotateZoomedMap : bool)
    (initialMouseTranslation currentMouseTranslation : Coordinate)
    (currentMouseRotation : Angle) : outcome (list fp) :=
  let physicalWidth := fin physicalMazeSize.1 in
  let physicalHeight := fin physicalMazeSize.2 in
  let pixelsPerMeter := (fin screenPixelsPerMeter * fin zoomedMapScale)%fp in
  let pixelWidth := (pixelsPerMeter * physicalWidth)%fp in
  let pixelHeight := (pixelsPerMeter * physicalHeight)%fp in
  let openGlOrigin :=
    mapPixelCoordinateToOpenGlCoordinate (of_int 0, of_int 0) windowSize in
  let openGlMazeSize :=
    mapPixelCoordinateToOpenGlCoordinate (pixelWidth, pixelHeight) windowSize in
  let openGlWidth := (openGlMazeSize.1 - openGlOrigin.1)%fp in
  let openGlHeight := (openGlMazeSize.2 - openGlOrigin.2)%fp in
  let horizontalScaling := (openGlWidth / physicalWidth)%fp in
  let verticalScaling := (openGlHeight / physicalHeight)%fp in
  let scalingMatrix := [
    static_cast_float horizontalScaling; fin 0; fin 0; fin 0;
    fin 0; static_cast_float verticalScaling; fin 0; fin 0;
    fin 0; fin 0; fin 1; fin 0;
    fin 0; fin 0; fin 0; fin 1
  ] in
  let centerXPixels :=
    (fin (getMeters (getX initialMouseTranslation)) * pixelsPerMeter)%fp in
  let centerYPixels :=
    (fin (getMeters (getY initialMouseTranslation)) * pixelsPerMeter)%fp in
  let zoomedMapCenterXPixels :=
    (of_int zoomedMapPosition.1 + fin 0.5 * of_int zoomedMapSize.1)%fp in
  let zoomedMapCenterYPixels :=
    (of_int zoomedMapPosition.2 + fin 0.5 * of_int zoomedMapSize.2)%fp in
  let staticTranslationXPixels := (zoomedMapCenterXPixels - centerXPixels)%fp in
  let staticTranslationYPixels := (zoomedMapCenterYPixels - centerYPixels)%fp in
  let staticTranslation :=
    mapPixelCoordinateToOpenGlCoordinate
      (staticTranslationXPixels, staticTranslationYPixels) windowSize in
  let mouseTranslationDelta :=
    Coordinate_minus currentMouseTranslation initialMouseTranslation in
  let dynamicTranslationXPixels :=
    (fin (getMeters (getX mouseTranslationDelta)) * pixelsPerMeter)%fp in
  let dynamicTranslationYPixels :=
    (fin (getMeters (getY mouseTranslationDelta)) * pixelsPerMeter)%fp in
  let dynamicTranslation :=
    mapPixelCoordinateToOpenGlCoordinate
      (dynamicTranslationXPixels, dynamicTranslationYPixels) windowSize in
  let horizontalTranslation :=
    (staticTranslation.1 - dynamicTranslation.1 + openGlOrigin.1)%fp in
  let verticalTranslation :=
    (staticTranslation.2 - dynamicTranslation.2 + openGlOrigin.2)%fp in
  let translationMatrix := [
    fin 1; fin 0; fin 0; static_cast_float horizontalTranslation;
    fin 0; fin 1; fin 0; static_cast_float verticalTranslation;
    fin 0; fin 0; fin 1; fin 0;
    fin 0; fin 0; fin 0; fin 1
  ] in
  let theta :=
    fin (getRadiansZeroTo2pi (Angle_minus currentMouseRotation (Degrees 90))) in
  let rotationMatrix := [
    static_cast_float (std_cos theta); static_cast_float (std_sin theta); fin 0; fin 0;
    static_cast_float (- std_sin theta)%fp; static_cast_float (std_cos theta); fin 0; fin 0;
    fin 0; fin 0; fin 1; fin 0;
    fin 0; fin 0; fin 0; fin 1
  ] in
  let inverseScalingMatrix := [
    static_cast_float (fin 1 / horizontalScaling)%fp; fin 0; fin 0; fin 0;
    fin 0; static_cast_float (fin 1 / verticalScaling)%fp; fin 0; fin 0;
    fin 0; fin 0; fin 1; fin 0;
    fin 0; fin 0; fin 0; fin 1
  ] in
  let zoomedMapCenterOpenGl :=
    mapPixelCoordinateToOpenGlCoordinate
      (zoomedMapCenterXPixels, zoomedMapCenterYPixels) windowSize in
  let translateToOriginMatrix := [
    fin 1; fin 0; fin 0; static_cast_float zoomedMapCenterOpenGl.1;
    fin 0; fin 1; fin 0; static_cast_float zoomedMapCenterOpenGl.2;
    fin 0; fin 0; fin 1; fin 0;
    fin 0; fin 0; fin 0; fin 1
  ] in
  let inverseTranslateToOriginMatrix := [
    fin 1; fin 0; fin 0; static_cast_float (- zoomedMapCenterOpenGl.1)%fp;
    fin 0; fin 1; fin 0; static_cast_float (- zoomedMapCenterOpenGl.2)%fp;
    fin 0; fin 0; fin 1; fin 0;
    fin 0; fin 0; fin 0; fin 1
  ] in
  zoomedMapCameraMatrix ← multiply4x4Matrices translationMatrix scalingMatrix;
  if rotateZoomedMap then
    m1 ← multiply4x4Matrices inverseTranslateToOriginMatrix zoomedMapCameraMatrix;
    m2 ← multiply4x4Matrices inverseScalingMatrix m1;
    m3 ← multiply4x4Matrices rotationMatrix m2;
    m4 ← multiply4x4Matrices scalingMatrix m3;
    multiply4x4Matrices translateToOriginMatrix m4
  else
    Returned zoomedMapCameraMatrix.

(** ** The spec's words

    The definitions below follow the text of the spec, over the real
    numbers; the code above is compared with them. *)

(** "[ndc = 2*pixel/windowSize - 1] per axis" *)
Definition spec_ndc (pixel : R * R) (windowSize : Z * Z) : R * R :=
  (2 * pixel.1 / IZR windowSize.1 - 1, 2 * pixel.2 / IZR windowSize.2 - 1).

(** A translation and a scaling of the plane, as homogeneous row-major 4x4
    matrices whose third and fourth axes pass through unchanged. *)
Definition spec_Translation (t : R * R) : list R :=
  [1; 0; 0; t.1;
   0; 1; 0; t.2;
   0; 0; 1; 0;
   0; 0; 0; 1].

Definition spec_Scaling (s : R * R) : list R :=
  [s.1; 0; 0; 0;
   0; s.2; 0; 0;
   0; 0; 1; 0;
   0; 0; 0; 1].

Definition spec_Identity : list R :=
  [1; 0; 0; 0;
   0; 1; 0; 0;
   0; 0; 1; 0;
   0; 0; 0; 1].

(** The entry in row [i] and column [j]. *)
Definition spec_entry (m : list R) (i j : nat) : R := nth (4 * i + j) m 0.

(** "[result[i][j] = sum over k of left[i][k]*right[k][j]]" *)
Definition spec_product (left right : list R) : list R :=
  i ← [0; 1; 2; 3]%nat;
  j ← [0; 1; 2; 3]%nat;
  [spec_entry left i 0 * spec_entry right 0 j
   + spec_entry left i 1 * spec_entry right 1 j
   + spec_entry left i 2 * spec_entry right 2 j
   + spec_entry left i 3 * spec_entry right 3 j].


(** The zoomed map, steps 1 to 4: "[pixelsPerMeter = screenPixelsPerMeter *
    zoomScale]", the per-axis scale "exactly as in the full-map case",
    "[staticPx = targetCenterPx - initialPosition*pixelsPerMeter]",
    "[delta = currentPosition - initialPosition]", "combined translation =
    [staticNDC - dynamicNDC + pixelOriginNDC]" and "[camera =
    Translation(combined) . Scaling]". *)
Definition spec_ndcPerMeter
    (pixelsPerMeter : R) (physicalMazeSize : R * R) (windowSize : Z * Z) : R * R :=
  let mazePixelSize :=
    (pixelsPerMeter * physicalMazeSize.1, pixelsPerMeter * physicalMazeSize.2) in
  (((spec_ndc mazePixelSize windowSize).1 - (spec_ndc (0, 0) windowSize).1)
     / physicalMazeSize.1,
   ((spec_ndc mazePixelSize windowSize).2 - (spec_ndc (0, 0) windowSize).2)
     / physicalMazeSize.2).

Definition spec_targetCenterPx (targetPosition targetSize : Z * Z) : R * R :=
  (IZR targetPosition.1 + 0.5 * IZR targetSize.1,
   IZR targetPosition.2 + 0.5 * IZR targetSize.2).

Definition spec_combinedTranslation
    (targetPosition targetSize windowSize : Z * Z) (pixelsPerMeter : R)
    (initialPosition currentPosition : R * R) : R * R :=
  let targetCenterPx := spec_targetCenterPx targetPosition targetSize in
  let staticPx :=
    (targetCenterPx.1 - initialPosition.1 * pixelsPerMeter,
     targetCenterPx.2 - initialPosition.2 * pixelsPerMeter) in
  let delta :=
    (currentPosition.1 - initialPosition.1, currentPosition.2 - initialPosition.2) in
  let dynamicPx := (delta.1 * pixelsPerMeter, delta.2 * pixelsPerMeter) in
  let staticNDC := spec_ndc staticPx windowSize in
  let dynamicNDC := spec_ndc dynamicPx windowSize in
  let pixelOriginNDC := spec_ndc (0, 0) windowSize in
  (staticNDC.1 - dynamicNDC.1 + pixelOriginNDC.1,
   staticNDC.2 - dynamicNDC.2 + pixelOriginNDC.2).

Definition spec_camera
    (physicalMazeSize : R * R) (targetPosition targetSize windowSize : Z * Z)
    (screenPixelsPerMeter zoomScale : R)
    (initialPosition currentPosition : R * R) : list R :=
  let pixelsPerMeter := screenPixelsPerMeter * zoomScale in
  spec_product
    (spec_Translation
       (spec_combinedTranslation targetPosition targetSize windowSize
          pixelsPerMeter initialPosition currentPosition))
    (spec_Scaling (spec_ndcPerMeter pixelsPerMeter physicalMazeSize windowSize)).

(** The position of a coordinate, in meters. *)
Definition meters (c : Coordinate) : R * R :=
  (getMeters (getX c), getMeters (getY c)).

(** Modelled from the spec: the vertex shader that consumes the matrices is
    not among the sources. It applies a matrix to the point [(x, y, 0, 1)];
    the first two coordinates of the result are the OpenGL position. *)
Definition applyToVertex (m : list fp) (v : R * R) : fp * fp :=
  let row i :=
    (nth (4 * i) m nan * fin v.1 + nth (4 * i + 1) m nan * fin v.2
     + nth (4 * i + 2) m nan * fin 0 + nth (4 * i + 3) m nan * fin 1)%fp in
  (row 0%nat, row 1%nat).

(** A matrix all of whose entries are numbers. *)
Definition finite (m : list R) : list fp := fin <$> m.

End TransformationMatrix.

(** * Facts about [MazeInterface] *)

Import MazeInterface.

Section MazeInterfaceFacts.
Local Open Scope Z_scope.
Context {Direction : Type} `{EqDecision Direction}.
Variable CHAR_TO_DIRECTION : gmap ascii Direction.
Implicit Types (s : sim (Direction := Direction)) (x y : Z).

Lemma string_app_assoc (a b c : string) :
  ((a +:+ b) +:+ c = a +:+ b +:+ c)%string.
Proof.
  induction a as [|ch a IH]; [reflexivity|].
  change (String ch ((a +:+ b) +:+ c) = String ch (a +:+ b +:+ c))%string.
  now rewrite IH.
Qed.

(** *** Conversions between [size_t] and [int] *)

Lemma to_int_range z : - 2 ^ 31 <= to_int z < 2 ^ 31.
Proof. unfold to_int. pose proof (Z.mod_pos_bound (z + 2 ^ 31) (2 ^ 32)). lia. Qed.

Lemma to_int_le z : 0 <= z -> to_int z <= z.
Proof.
  intros Hz. unfold to_int.
  pose proof (Z.mod_le (z + 2 ^ 31) (2 ^ 32)). lia.
Qed.

Lemma to_int_small z : 0 <= z < 2 ^ 31 -> to_int z = z.
Proof. intros Hz. unfold to_int. rewrite Z.mod_small; lia. Qed.

(** An index that passed the comparison with a dimension designates a
    position of the vector. *)
Lemma index_checked (n : nat) x :
  0 <= x < to_int (Z.of_nat n) -> index x = Z.to_nat x /\ (index x < n)%nat.
Proof.
  intros Hx. pose proof (to_int_range (Z.of_nat n)).
  pose proof (to_int_le (Z.of_nat n)).
  unfold index, to_size_t. rewrite Z.mod_small; lia.
Qed.

Lemma at_checked {A : Type} (v : list A) x :
  0 <= x < to_int (Z.of_nat (length v)) ->
  exists a, at_ v x = Returned a /\ v !! Z.to_nat x = Some a.
Proof.
  intros Hx. destruct (index_checked _ _ Hx) as [Hi Hlt].
  destruct (lookup_lt_is_Some_2 v (index x) Hlt) as [a Ha].
  exists a. unfold at_. rewrite Ha. split; [reflexivity | congruence].
Qed.

(** For a maze of fewer than 2^31 columns the width reported is the number
    of columns. *)
Lemma getWidth_actual s :
  Z.of_nat (length (m_basicMaze s)) < 2 ^ 31 ->
  getWidth s = Z.of_nat (length (m_basicMaze s)).
Proof. intros Hsmall. unfold getWidth. apply to_int_small. lia. Qed.

(** *** The bounds check *)

Lemma bounds_check_fails s x y :
  ~ (0 <= x < getWidth s) \/ ~ (0 <= y < getHeight s) ->
  (x <? 0) || (getWidth s <=? x) || (y <? 0) || (getHeight s <=? y) = true.
Proof.
  intros Hout.
  destruct (x <? 0) eqn:E1; [reflexivity|].
  destruct (getWidth s <=? x) eqn:E2; [reflexivity|].
  destruct (y <? 0) eqn:E3; [reflexivity|].
  destruct (getHeight s <=? y) eqn:E4; [reflexivity|]. lia.
Qed.

Lemma bounds_check_passes s x y :
  0 <= x < getWidth s -> 0 <= y < getHeight s ->
  (x <? 0) || (getWidth s <=? x) || (y <? 0) || (getHeight s <=? y) = false.
Proof.
  intros Hx Hy.
  destruct (x <? 0) eqn:E1; [lia|].
  destruct (getWidth s <=? x) eqn:E2; [lia|].
  destruct (y <? 0) eqn:E3; [lia|].
  destruct (getHeight s <=? y) eqn:E4; [lia|]. reflexivity.
Qed.

(** The two diagnostics never coincide: they part at their eleventh
    character. *)
Lemma messages_distinct s x y (direction : ascii) :
  out_of_bounds_message s x y <> unknown_direction_message direction.
Proof.
  unfold out_of_bounds_message, unknown_direction_message.
  lazy beta iota delta [String.append]. congruence.
Qed.

(** C7: for every (x, y) with x outside [0, width) or y outside
    [0, height), negative values included, setWall returns normally, leaves
    the grid as it was, and prints one diagnostic, the out-of-bounds message,
    which shows the width and height of the maze and the coordinate. *)
Theorem setWall_out_of_bounds s x y (direction : ascii) (wallExists : bool) :
  ~ (0 <= x < getWidth s) \/ ~ (0 <= y < getHeight s) ->
  let message := out_of_bounds_message s x y in
  setWall CHAR_TO_DIRECTION x y direction wallExists s
    = Returned {| m_basicMaze := m_basicMaze s; printed := printed s ++ [message] |}
  /\ includes (to_string (getWidth s) +:+ " and " +:+ to_string (getHeight s)) message
  /\ includes ("(" +:+ to_string x +:+ ", " +:+ to_string y +:+ ")") message.
Proof.
  intros Hout message. unfold setWall.
  rewrite (bounds_check_fails _ _ _ Hout). split; [reflexivity|].
  unfold message, out_of_bounds_message, includes. split.
  - exists "Error: The generated maze width and height values are "%string,
           (", respectively." +:+ "There is no tile at position ("
            +:+ to_string x +:+ ", " +:+ to_string y
            +:+ "), and thus you cannot set its wall value.")%string.
    rewrite !string_app_assoc. reflexivity.
  - exists ("Error: The generated maze width and height values are "
            +:+ to_string (getWidth s) +:+ " and " +:+ to_string (getHeight s)
            +:+ ", respectively." +:+ "There is no tile at position ")%string,
           ", and thus you cannot set its wall value."%string.
    rewrite !string_app_assoc. reflexivity.
Qed.

(** C8, as the code has it: for every direction character that the code
    table does not hold and every (x, y), setWall returns normally, leaves the
    grid as it was and prints one diagnostic. The diagnostic is the
    unknown-direction message, which shows the character, when (x, y) passes
    the bounds check, and the out-of-bounds message when it does not; the two
    messages differ. *)
Theorem setWall_unknown_direction s x y (direction : ascii) (wallExists : bool) :
  CHAR_TO_DIRECTION !! direction = None ->
  exists message,
    setWall CHAR_TO_DIRECTION x y direction wallExists s
      = Returned {| m_basicMaze := m_basicMaze s; printed := printed s ++ [message] |}
    /\ (0 <= x < getWidth s -> 0 <= y < getHeight s ->
        message = unknown_direction_message direction)
    /\ (~ (0 <= x < getWidth s) \/ ~ (0 <= y < getHeight s) ->
        message = out_of_bounds_message s x y)
    /\ unknown_direction_message direction <> out_of_bounds_message s x y
    /\ includes (String direction EmptyString) (unknown_direction_message direction).
Proof.
  intros Hnone. unfold setWall.
  destruct ((x <? 0) || (getWidth s <=? x) || (y <? 0) || (getHeight s <=? y)) eqn:Hcheck.
  - exists (out_of_bounds_message s x y). split; [reflexivity|].
    split; [|split; [reflexivity|]].
    + intros Hx Hy. rewrite (bounds_check_passes _ _ _ Hx Hy) in Hcheck. discriminate.
    + split; [apply not_eq_sym, messages_distinct|].
      now exists "Error: The character '"%string,
                 "' is not mapped to a valid direction."%string.
  - rewrite Hnone. exists (unknown_direction_message direction).
    split; [reflexivity|]. split; [reflexivity|]. split.
    + intros Hout. rewrite (bounds_check_fails _ _ _ Hout) in Hcheck. discriminate.
    + split; [apply not_eq_sym, messages_distinct|].
      now exists "Error: The character '"%string,
                 "' is not mapped to a valid direction."%string.
Qed.

(** *** Writing a wall *)

(** In a rectangular grid, a coordinate that passes the bounds check
    designates a tile. *)
Lemma checked_tile s x y :
  rectangular s -> 0 <= x < getWidth s -> 0 <= y < getHeight s ->
  exists column tile,
    at_ (m_basicMaze s) x = Returned column /\ at_ column y = Returned tile
    /\ index x = Z.to_nat x /\ index y = Z.to_nat y
    /\ m_basicMaze s !! Z.to_nat x = Some column
    /\ column !! Z.to_nat y = Some tile.
Proof.
  unfold rectangular, getWidth, getHeight. intros Hrect Hx Hy.
  destruct (at_checked _ _ Hx) as (column & Hat & Hcol).
  destruct (m_basicMaze s) as [|first rest] eqn:Hgrid.
  { simpl in Hx. unfold to_int in Hx. simpl in Hx. lia. }
  rewrite Forall_lookup in Hrect. specialize (Hrect _ _ Hcol).
  rewrite <- Hrect in Hy.
  destruct (at_checked _ _ Hy) as (tile & Hat' & Htile).
  exists column, tile. repeat split; try assumption.
  - apply (index_checked _ _ Hx).
  - apply (index_checked _ _ Hy).
Qed.

(** C9: in a grid whose columns all have the height of the first, for every
    (x, y) that is in bounds and every direction character of the code table,
    setWall returns normally and prints nothing; afterwards the flag of that
    direction of tile (x, y) reads as the given value, every other flag of
    that tile and every other tile are as before, and so is the shape of the
    grid. *)
Theorem setWall_sets_one_flag s x y (direction : ascii) (d : Direction)
    (wallExists : bool) :
  rectangular s ->
  0 <= x < getWidth s -> 0 <= y < getHeight s ->
  CHAR_TO_DIRECTION !! direction = Some d ->
  exists s',
    setWall CHAR_TO_DIRECTION x y direction wallExists s = Returned s'
    /\ printed s' = printed s
    /\ wallAt s' (Z.to_nat x) (Z.to_nat y) d = Some wallExists
    /\ (forall d', d' <> d ->
          wallAt s' (Z.to_nat x) (Z.to_nat y) d' = wallAt s (Z.to_nat x) (Z.to_nat y) d')
    /\ (forall x' y' : nat, (x', y') <> (Z.to_nat x, Z.to_nat y) ->
          tileAt s' x' y' = tileAt s x' y')
    /\ length <$> m_basicMaze s' = length <$> m_basicMaze s.
Proof.
  intros Hrect Hx Hy Hd.
  destruct (checked_tile s x y Hrect Hx Hy)
    as (column & tile & Hat & Hat' & Hix & Hiy & Hcol & Htile).
  unfold setWall. rewrite (bounds_check_passes _ _ _ Hx Hy), Hd, Hat.
  simpl. rewrite Hat'. simpl. rewrite Hix, Hiy.
  eexists. split; [reflexivity|]. split; [reflexivity|].
  pose proof (lookup_lt_Some _ _ _ Hcol) as Hxlt.
  pose proof (lookup_lt_Some _ _ _ Htile) as Hylt.
  unfold wallAt, tileAt. simpl. repeat split.
  - rewrite list_lookup_insert_eq by assumption. simpl.
    rewrite list_lookup_insert_eq by assumption. simpl.
    now rewrite decide_True.
  - intros d' Hd'. rewrite list_lookup_insert_eq by assumption. simpl.
    rewrite list_lookup_insert_eq by assumption. simpl.
    rewrite Hcol. simpl. rewrite Htile. simpl.
    now rewrite decide_False.
  - intros x' y' Hne. destruct (decide (x' = Z.to_nat x)) as [->|Hx'].
    + rewrite list_lookup_insert_eq by assumption. simpl.
      rewrite list_lookup_insert_ne by congruence. now rewrite Hcol.
    + now rewrite list_lookup_insert_ne by congruence.
  - rewrite list_fmap_insert, length_insert. apply list_insert_id.
    rewrite list_lookup_fmap, Hcol. reflexivity.
Qed.

(** C10: getHeight is the converted size of the first column, or 0 when
    there is no column, so the bounds check compares y with the first column
    only. In a grid whose columns all have the height of the first, a call
    whose coordinate passes the check finds the column and the tile it
    accesses, and no call to setWall throws. *)
Theorem setWall_accesses_in_range s x y (direction : ascii) (wallExists : bool) :
  rectangular s ->
  getHeight s = to_int (Z.of_nat (length (default [] (m_basicMaze s !! 0%nat))))
  /\ (0 <= x < getWidth s -> 0 <= y < getHeight s ->
      exists column tile,
        at_ (m_basicMaze s) x = Returned column /\ at_ column y = Returned tile)
  /\ exists s', setWall CHAR_TO_DIRECTION x y direction wallExists s = Returned s'.
Proof.
  intros Hrect. split; [|split].
  - unfold getHeight. now destruct (m_basicMaze s).
  - intros Hx Hy.
    destruct (checked_tile s x y Hrect Hx Hy) as (column & tile & Hat & Hat' & _).
    now exists column, tile.
  - unfold setWall.
    destruct ((x <? 0) || (getWidth s <=? x) || (y <? 0) || (getHeight s <=? y)) eqn:Hcheck;
      [eexists; reflexivity|].
    destruct (CHAR_TO_DIRECTION !! direction); [|eexists; reflexivity].
    assert (0 <= x < getWidth s /\ 0 <= y < getHeight s) as [Hx Hy].
    { destruct (x <? 0) eqn:E1; [discriminate|].
      destruct (getWidth s <=? x) eqn:E2; [discriminate|].
      destruct (y <? 0) eqn:E3; [discriminate|].
      destruct (getHeight s <=? y) eqn:E4; [discriminate|]. lia. }
    destruct (checked_tile s x y Hrect Hx Hy) as (column & tile & Hat & Hat' & _).
    rewrite Hat. simpl. rewrite Hat'. simpl. eexists; reflexivity.
Qed.

End MazeInterfaceFacts.

(** *** The interface on a small maze *)

Lemma small_maze_dimensions :
  (getWidth small_maze = 2 /\ getHeight small_maze = 3)%Z.
Proof. split; reflexivity. Qed.

Lemma small_maze_rectangular : rectangular small_maze.
Proof. unfold rectangular; simpl. repeat constructor. Qed.

Example setWall_north_wall :
  exists s', setWall compass_codes 1 2 "n" true small_maze = Returned s'
    /\ wallAt s' 1 2 NORTH = Some true /\ wallAt s' 1 2 EAST = Some false
    /\ wallAt s' 1 1 NORTH = Some false /\ printed s' = [].
Proof. eexists. split; [reflexivity|]. repeat split. Qed.

(** The rectangular shape matters: in a ragged grid the check against the
    first column lets a coordinate through that the column does not have. *)
Example setWall_ragged_throws :
  (0 <= 1 < getWidth ragged_maze)%Z /\ (0 <= 2 < getHeight ragged_maze)%Z
  /\ setWall compass_codes 1 2 "n" true ragged_maze = Threw out_of_range.
Proof. repeat split; reflexivity || (intros Hcmp; discriminate Hcmp). Qed.

Lemma setWall_out_of_bounds_witness :
  (~ (0 <= -1 < getWidth small_maze)%Z \/ ~ (0 <= 0 < getHeight small_maze)%Z)
  /\ setWall compass_codes (-1) 0 "n" true small_maze
     = Returned {| m_basicMaze := m_basicMaze small_maze;
                   printed := printed small_maze
                              ++ [out_of_bounds_message small_maze (-1) 0] |}.
Proof.
  assert (Hout : ~ (0 <= -1 < getWidth small_maze)%Z
                 \/ ~ (0 <= 0 < getHeight small_maze)%Z) by (left; lia).
  split; [exact Hout|].
  exact (proj1 (setWall_out_of_bounds compass_codes small_maze (-1) 0 "n" true Hout)).
Defined.

(** C8 fails as stated: with a character outside the table and a coordinate
    out of bounds, the only diagnostic is the out-of-bounds message; the
    unknown-direction message is not printed. *)
Lemma setWall_unknown_direction_out_of_bounds :
  compass_codes !! "z"%char = None
  /\ setWall compass_codes (-1) 0 "z" true small_maze
     = Returned {| m_basicMaze := m_basicMaze small_maze;
                   printed := [out_of_bounds_message small_maze (-1) 0] |}
  /\ setWall compass_codes (-1) 0 "z" true small_maze
     <> Returned {| m_basicMaze := m_basicMaze small_maze;
                    printed := [unknown_direction_message "z"] |}.
Proof.
  split; [reflexivity|]. split; [reflexivity|].
  intros Heq. vm_compute in Heq. discriminate Heq.
Qed.

Lemma setWall_unknown_direction_witness :
  compass_codes !! "z"%char = None
  /\ setWall compass_codes 1 2 "z" true small_maze
     = Returned {| m_basicMaze := m_basicMaze small_maze;
                   printed := [unknown_direction_message "z"] |}.
Proof.
  assert (Hnone : compass_codes !! "z"%char = None) by reflexivity.
  split; [exact Hnone|].
  destruct (setWall_unknown_direction compass_codes small_maze 1 2 "z" true Hnone)
    as (message & Hrun & Hin & _).
  destruct small_maze_dimensions as [Hw Hh].
  rewrite Hrun, Hin; [reflexivity | | ]; rewrite ?Hw, ?Hh; lia.
Defined.

Lemma setWall_sets_one_flag_witness :
  rectangular small_maze
  /\ (0 <= 1 < getWidth small_maze)%Z /\ (0 <= 2 < getHeight small_maze)%Z
  /\ compass_codes !! "n"%char = Some NORTH
  /\ exists s',
       setWall compass_codes 1 2 "n" true small_maze = Returned s'
       /\ wallAt s' 1 2 NORTH = Some true.
Proof.
  assert (Hx : (0 <= 1 < getWidth small_maze)%Z)
    by (destruct small_maze_dimensions as [-> _]; lia).
  assert (Hy : (0 <= 2 < getHeight small_maze)%Z)
    by (destruct small_maze_dimensions as [_ ->]; lia).
  assert (Hd : compass_codes !! "n"%char = Some NORTH) by reflexivity.
  repeat (split; [assumption || exact small_maze_rectangular|]).
  destruct (setWall_sets_one_flag compass_codes small_maze 1 2 "n" NORTH true
              small_maze_rectangular Hx Hy Hd) as (s' & Hrun & _ & Hread & _).
  exists s'. split; assumption.
Defined.

Lemma setWall_accesses_in_range_witness :
  rectangular small_maze
  /\ exists s', setWall compass_codes 1 2 "n" true small_maze = Returned s'.
Proof.
  split; [exact small_maze_rectangular|].
  exact (proj2 (proj2 (setWall_accesses_in_range compass_codes small_maze 1 2 "n" true
                         small_maze_rectangular))).
Defined.

(** * Facts about [TransformationMatrix] *)

Import TransformationMatrix.

Section TransformationMatrixFacts.
Local Open Scope R_scope.

(** Splits a list known to have sixteen elements into its elements. *)
Ltac sixteen l :=
  do 16 (destruct l as [|? l]; [discriminate|]); destruct l; [|discriminate].

Lemma bind_Returned {A B : Type} (a : A) (f : A -> outcome B) :
  (Returned a ≫= f) = f a.
Proof. reflexivity. Qed.

(** *** Arithmetic on numbers *)

Lemma fdiv_fin (x y : R) : y <> 0 -> (fin x / fin y)%fp = fin (x / y).
Proof.
  intros Hy. unfold fdiv. destruct (Req_dec_T y 0); [contradiction|reflexivity].
Qed.

Lemma fdiv_zero (x : R) : 0 < x -> (fin x / fin 0)%fp = pinf.
Proof.
  intros Hx. unfold fdiv, inf_of_sign.
  destruct (Req_dec_T 0 0); [|contradiction].
  destruct (Rlt_dec 0 x); [reflexivity|contradiction].
Qed.

Lemma fmul_inf_zero : (pinf * fin 0)%fp = nan /\ (fin 0 * pinf)%fp = nan.
Proof.
  unfold fmul, inf_of_sign.
  destruct (Rlt_dec 0 0); [lra|]. now split.
Qed.

Lemma inf_of_sign_zero (x : R) : x = 0 -> inf_of_sign x = nan.
Proof.
  intros ->. unfold inf_of_sign. destruct (Rlt_dec 0 0); [lra | reflexivity].
Qed.

Lemma fmul_nan (a : fp) : (a * nan)%fp = nan.
Proof. now destruct a. Qed.

Lemma std_min_fin (x y : R) : std_min (fin x) (fin y) = fin (Rmin x y).
Proof.
  unfold std_min, flt, Rmin.
  destruct (Rlt_dec y x), (Rle_dec x y); try reflexivity; f_equal; lra.
Qed.

Lemma mapPixelCoordinateToOpenGlCoordinate_fin (a b : R) (windowSize : Z * Z) :
  windowSize.1 <> 0%Z -> windowSize.2 <> 0%Z ->
  mapPixelCoordinateToOpenGlCoordinate (fin a, fin b) windowSize
  = (fin (spec_ndc (a, b) windowSize).1, fin (spec_ndc (a, b) windowSize).2).
Proof.
  intros Hw Hh. unfold mapPixelCoordinateToOpenGlCoordinate, of_int.
  cbn [fst snd fmul].
  rewrite !fdiv_fin by now apply not_0_IZR. reflexivity.
Qed.

(** The pixel origin goes to (-1, -1), the far corner of the window to
    (1, 1). *)
Lemma mapPixelCoordinateToOpenGlCoordinate_corners (windowSize : Z * Z) :
  windowSize.1 <> 0%Z -> windowSize.2 <> 0%Z ->
  mapPixelCoordinateToOpenGlCoordinate (of_int 0, of_int 0) windowSize
  = (fin (- 1), fin (- 1))
  /\ mapPixelCoordinateToOpenGlCoordinate
       (of_int windowSize.1, of_int windowSize.2) windowSize
     = (fin 1, fin 1).
Proof.
  intros Hw Hh. unfold of_int.
  rewrite !mapPixelCoordinateToOpenGlCoordinate_fin by assumption.
  apply not_0_IZR in Hw, Hh. unfold spec_ndc. cbn [fst snd].
  split; f_equal; f_equal; field; assumption.
Qed.

(** *** The matrix product *)

Lemma multiply4x4Matrices_unrolled (left right : list fp) :
  length left = 16%nat -> length right = 16%nat ->
  multiply4x4Matrices left right = Returned (unrolled_product left right).
Proof. intros Hl Hr. sixteen left. sixteen right. reflexivity. Qed.

Lemma unrolled_product_length (left right : list fp) :
  length (unrolled_product left right) = 16%nat.
Proof. reflexivity. Qed.

(** Once the first entry of the right factor is not a number, neither is the
    first entry of the product. *)
Lemma unrolled_product_nan (left right : list fp) :
  nth 0 right nan = nan -> nth 0 (unrolled_product left right) nan = nan.
Proof.
  intros Hnan. unfold unrolled_product. cbn [mbind list_bind mjoin]. cbn.
  now rewrite Hnan, fmul_nan.
Qed.

Lemma unrolled_product_head (left right : list fp) :
  nth 0 (unrolled_product left right) nan = nan ->
  exists rest, unrolled_product left right = nan :: rest.
Proof.
  intros Hnan.
  assert (exists rest, unrolled_product left right
                       = nth 0 (unrolled_product left right) nan :: rest)
    as [rest Hrest] by (eexists; reflexivity).
  exists rest. now rewrite Hrest, Hnan.
Qed.







(** C6: a vector that does not have sixteen elements, on either side, makes
    multiply4x4Matrices fail an assertion; with sixteen elements on both
    sides no assertion fails and the matrix returned has sixteen elements. *)
Theorem multiply4x4Matrices_sizes (left right : list fp) :
  (length left <> 16%nat \/ length right <> 16%nat ->
   multiply4x4Matrices left right = Threw failed_assertion)
  /\ (length left = 16%nat -> length right = 16%nat ->
      exists result,
        multiply4x4Matrices left right = Returned result
        /\ length result = 16%nat).
Proof.
  split.
  - intros Hsize. unfold multiply4x4Matrices, ASSERT_EQ.
    destruct (decide (length left = 16%nat)) as [Hl|Hl]; [|reflexivity].
    destruct (decide (length right = 16%nat)) as [Hr|Hr]; [|reflexivity].
    destruct Hsize; contradiction.
  - intros Hl Hr. exists (unrolled_product left right).
    split; [now apply multiply4x4Matrices_unrolled | apply unrolled_product_length].
Qed.

Lemma multiply4x4Matrices_sizes_witness :
  (length [fin 1; fin 2] <> 16%nat \/ length (finite spec_Identity) <> 16%nat)
  /\ multiply4x4Matrices [fin 1; fin 2] (finite spec_Identity) = Threw failed_assertion
  /\ length (finite spec_Identity) = 16%nat
  /\ exists result,
       multiply4x4Matrices (finite spec_Identity) (finite spec_Identity)
         = Returned result
       /\ length result = 16%nat.
Proof.
  assert (Hshort : length [fin 1; fin 2] <> 16%nat
                   \/ length (finite spec_Identity) <> 16%nat)
    by (left; discriminate).
  assert (Hfull : length (finite spec_Identity) = 16%nat) by reflexivity.
  split; [exact Hshort|].
  split; [exact (proj1 (multiply4x4Matrices_sizes _ _) Hshort)|].
  split; [exact Hfull|].
  exact (proj2 (multiply4x4Matrices_sizes _ _) Hfull Hfull).
Defined.



(** The entries have to be numbers. An infinity, which a division by zero
    leaves in a matrix, does not survive the product with the identity: the
    zero next to it comes back as a value that is not a number. *)
Lemma multiply4x4Matrices_identity_infinite :
  let A := pinf :: finite [0; 0; 0; 0; 0; 0; 0; 0; 0; 0; 0; 0; 0; 0; 0] in
  length A = 16%nat
  /\ nth 1 A nan = fin 0
  /\ (exists product,
        multiply4x4Matrices A (finite spec_Identity) = Returned product
        /\ nth 1 product (fin 0) = nan)
  /\ multiply4x4Matrices A (finite spec_Identity) <> Returned A.
Proof.
  intros A. subst A. split; [reflexivity|]. split; [reflexivity|].
  rewrite multiply4x4Matrices_unrolled by reflexivity.
  assert (nth 1 (unrolled_product
                   (pinf :: finite [0; 0; 0; 0; 0; 0; 0; 0; 0; 0; 0; 0; 0; 0; 0])
                   (finite spec_Identity)) (fin 0) = nan) as Hentry.
  { cbn. now rewrite inf_of_sign_zero. }
  split; [eexists; split; [reflexivity | exact Hentry]|].
  intros Heq.
  apply (f_equal (fun run => match run with
                             | Returned product => nth 1 product (fin 0)
                             | Threw _ => fin 0
                             end)) in Heq.
  cbv beta iota in Heq. rewrite Hentry in Heq. discriminate Heq.
Qed.

(** *** The full map *)



(** The matrix of the full-map scenario: a scaling by 2 and a translation by
    [0.012 - 1] on both axes. *)
Lemma full_map_scenario :
  getFullMapTransformationMatrix
    (Meters 0.012) (1, 1) (0%Z, 0%Z) (400%Z, 400%Z) (400%Z, 400%Z)
  = Returned (finite [2; 0; 0; 0.012 - 1;
                      0; 2; 0; 0.012 - 1;
                      0; 0; 1; 0;
                      0; 0; 0; 1]).
Proof.
  unfold getFullMapTransformationMatrix, of_int, static_cast_float.
  cbv zeta. cbn [fst snd].
  rewrite !fdiv_fin by lra. rewrite !std_min_fin.
  cbn [fmul fadd fsub fneg].
  rewrite !mapPixelCoordinateToOpenGlCoordinate_fin by discriminate.
  cbn [fst snd fmul fadd fsub fneg spec_ndc].
  rewrite !fdiv_fin by lra.
  rewrite multiply4x4Matrices_unrolled by reflexivity.
  rewrite bind_Returned.
  rewrite multiply4x4Matrices_unrolled by reflexivity.
  rewrite bind_Returned.
  assert (Hmin : Rmin (400 / 1) (400 / 1) = 400)
    by (unfold Rmin; destruct (Rle_dec (400 / 1) (400 / 1)); lra).
  cbn. rewrite !Hmin. repeat (f_equal; try lra).
Qed.

Lemma full_map_scenario_pixelsPerMeter : Rmin (400 / 1) (400 / 1) = 400.
Proof. unfold Rmin. destruct (Rle_dec (400 / 1) (400 / 1)); lra. Qed.

(** C2, as the code has it: in the full-map scenario (wall width 0.012 m, a
    maze of 1 m by 1 m, a map at (0, 0) of 400 by 400 pixels in a window of
    400 by 400 pixels) the matrix takes the physical point (0, 0) to the
    pixel that lies 0.5 * wallWidth * pixelsPerMeter inside the lower-left
    corner of the map on both axes, and the physical point (1, 1) to the
    pixel that lies the same offset beyond the upper-right corner of the map
    on both axes. *)
Theorem full_map_scenario_corners :
  let windowSize := (400%Z, 400%Z) in
  let pixelsPerMeter := Rmin (400 / 1) (400 / 1) in
  let offset := 0.5 * 0.012 * pixelsPerMeter in
  exists matrix,
    getFullMapTransformationMatrix
      (Meters 0.012) (1, 1) (0%Z, 0%Z) (400%Z, 400%Z) windowSize
    = Returned matrix
    /\ applyToVertex matrix (0, 0)
       = mapPixelCoordinateToOpenGlCoordinate
           (fin (0 + offset), fin (0 + offset)) windowSize
    /\ applyToVertex matrix (1, 1)
       = mapPixelCoordinateToOpenGlCoordinate
           (fin (400 + offset), fin (400 + offset)) windowSize
    /\ applyToVertex matrix (1, 1) = (fin 1.012, fin 1.012).
Proof.
  intros windowSize pixelsPerMeter offset. eexists.
  split; [apply full_map_scenario|].
  subst offset pixelsPerMeter windowSize.
  rewrite !mapPixelCoordinateToOpenGlCoordinate_fin by discriminate.
  rewrite full_map_scenario_pixelsPerMeter.
  unfold applyToVertex. cbn. repeat split; repeat (f_equal; try lra).
Qed.

(** C2 fails as stated: the physical point (1, 1) does not go to the pixel
    that lies the offset inside the upper-right corner of the map. *)
Lemma full_map_scenario_upper_right :
  let windowSize := (400%Z, 400%Z) in
  let pixelsPerMeter := Rmin (400 / 1) (400 / 1) in
  let offset := 0.5 * 0.012 * pixelsPerMeter in
  exists matrix,
    getFullMapTransformationMatrix
      (Meters 0.012) (1, 1) (0%Z, 0%Z) (400%Z, 400%Z) windowSize
    = Returned matrix
    /\ applyToVertex matrix (1, 1)
       <> mapPixelCoordinateToOpenGlCoordinate
            (fin (400 - offset), fin (400 - offset)) windowSize.
Proof.
  intros windowSize pixelsPerMeter offset. eexists.
  split; [apply full_map_scenario|].
  subst offset pixelsPerMeter windowSize.
  rewrite !mapPixelCoordinateToOpenGlCoordinate_fin by discriminate.
  rewrite full_map_scenario_pixelsPerMeter.
  unfold applyToVertex. cbn. intros Heq. injection Heq as Hx Hy. lra.
Qed.

(** *** The zoomed map *)

(** Without rotation, the zoomed map is the camera matrix of the spec. *)
Lemma getZoomedMapTransformationMatrix_camera
    (physicalMazeSize : R * R) (zoomedMapPosition zoomedMapSize windowSize : Z * Z)
    (screenPixelsPerMeter zoomedMapScale : R)
    (initialMouseTranslation currentMouseTranslation : Coordinate)
    (currentMouseRotation : Angle) :
  physicalMazeSize.1 <> 0 -> physicalMazeSize.2 <> 0 ->
  windowSize.1 <> 0%Z -> windowSize.2 <> 0%Z ->
  getZoomedMapTransformationMatrix
    physicalMazeSize zoomedMapPosition zoomedMapSize windowSize
    screenPixelsPerMeter zoomedMapScale false
    initialMouseTranslation currentMouseTranslation currentMouseRotation
  = Returned (finite
      (spec_camera physicalMazeSize zoomedMapPosition zoomedMapSize windowSize
         screenPixelsPerMeter zoomedMapScale
         (meters initialMouseTranslation) (meters currentMouseTranslation))).
Proof.
  intros Hpw Hph Hww Hwh.
  unfold getZoomedMapTransformationMatrix, of_int, static_cast_float.
  cbv zeta.
  cbn [fmul fadd fsub fneg Coordinate_minus getX getY getMeters].
  rewrite !mapPixelCoordinateToOpenGlCoordinate_fin by assumption.
  cbn [fst snd fmul fadd fsub fneg].
  rewrite !(fdiv_fin _ physicalMazeSize.1), !(fdiv_fin _ physicalMazeSize.2)
    by assumption.
  rewrite multiply4x4Matrices_unrolled by reflexivity.
  rewrite bind_Returned.
  cbn. unfold Rdiv. repeat (f_equal; try ring).
Qed.



(** *** The rotating zoomed map *)


(** The normalized angle lies in [0, 2 pi). *)
Lemma getRadiansZeroTo2pi_range (a : Angle) :
  0 <= getRadiansZeroTo2pi a < 2 * PI.
Proof.
  unfold getRadiansZeroTo2pi. pose proof PI_RGT_0 as Hpi.
  set (turns := getRadians a / (2 * PI)).
  destruct (base_Int_part turns) as [Hlow Hhigh].
  replace (getRadians a) with (turns * (2 * PI))
    by (unfold turns; field; lra).
  split; nra.
Qed.


Lemma spec_ndcPerMeter_value (pixelsPerMeter : R) (physicalMazeSize : R * R)
    (windowSize : Z * Z) :
  physicalMazeSize.1 <> 0 -> physicalMazeSize.2 <> 0 ->
  windowSize.1 <> 0%Z -> windowSize.2 <> 0%Z ->
  spec_ndcPerMeter pixelsPerMeter physicalMazeSize windowSize
  = (2 * pixelsPerMeter / IZR windowSize.1, 2 * pixelsPerMeter / IZR windowSize.2).
Proof.
  intros Hpw Hph Hww Hwh. apply not_0_IZR in Hww, Hwh.
  unfold spec_ndcPerMeter, spec_ndc. cbn [fst snd]. f_equal; field; auto.
Qed.









End TransformationMatrixFacts.

(** * More about [MazeInterface] *)

Section MazeInterfaceMore.
Local Open Scope Z_scope.
Context {Direction : Type} `{EqDecision Direction}.
Variable CHAR_TO_DIRECTION : gmap ascii Direction.
Implicit Types (s : sim (Direction := Direction)) (x y : Z).

Lemma at_Returned {A : Type} (v : list A) (n : Z) (a : A) :
  MazeInterface.at_ v n = Returned a -> v !! index n = Some a.
Proof. unfold MazeInterface.at_. destruct (v !! index n); [congruence | discriminate]. Qed.

Lemma index_small (n : Z) : 0 <= n < 2 ^ 31 -> index n = Z.to_nat n.
Proof. intros Hn. unfold index, to_size_t. rewrite Z.mod_small; lia. Qed.

(** The dimensions and the rectangular shape are read off the lengths of the
    columns. *)
Lemma shape_determines s s' :
  length <$> m_basicMaze s' = length <$> m_basicMaze s ->
  getWidth s' = getWidth s /\ getHeight s' = getHeight s
  /\ (rectangular s -> rectangular s').
Proof.
  intros Hshape. unfold getWidth, getHeight, rectangular.
  assert (length (m_basicMaze s') = length (m_basicMaze s)) as Hlen
    by (rewrite <- (length_fmap length (m_basicMaze s')), Hshape;
        apply length_fmap).
  split; [now rewrite Hlen|].
  destruct (m_basicMaze s) as [|c l] eqn:Hg, (m_basicMaze s') as [|c' l'] eqn:Hg';
    try discriminate; [now split|].
  assert (length c' = length c) as Hc by (now injection Hshape).
  rewrite Hc. split; [reflexivity|].
  rewrite !Forall_lookup. intros Hrect i column' Hi.
  assert ((length <$> c' :: l') !! i = Some (length column')) as Hi'
    by (now rewrite list_lookup_fmap, Hi).
  rewrite Hshape, list_lookup_fmap in Hi'.
  destruct ((c :: l) !! i) as [column|] eqn:Hcolumn; [|discriminate].
  injection Hi' as <-. now apply (Hrect i).
Qed.

Lemma insert_tile_shape (g : list (list (BasicTile (Direction := Direction))))
    (i j : nat) column tile :
  g !! i = Some column ->
  length <$> <[i := <[j := tile]> column]> g = length <$> g.
Proof.
  intros Hcol. rewrite list_fmap_insert, length_insert. apply list_insert_id.
  now rewrite list_lookup_fmap, Hcol.
Qed.

(** What a call that writes does: the state it returns, and what a reader of
    the grid sees afterwards. *)
Lemma setWall_writes s x y (direction : ascii) (d : Direction) (wallExists : bool) :
  rectangular s ->
  0 <= x < getWidth s -> 0 <= y < getHeight s ->
  CHAR_TO_DIRECTION !! direction = Some d ->
  exists s',
    setWall CHAR_TO_DIRECTION x y direction wallExists s = Returned s'
    /\ printed s' = printed s
    /\ length <$> m_basicMaze s' = length <$> m_basicMaze s
    /\ forall (x' y' : nat) d',
         wallAt s' x' y' d'
         = if decide (x' = Z.to_nat x /\ y' = Z.to_nat y /\ d' = d)
           then Some wallExists else wallAt s x' y' d'.
Proof.
  intros Hrect Hx Hy Hd.
  destruct (checked_tile s x y Hrect Hx Hy)
    as (column & tile & Hat & Hat' & Hix & Hiy & Hcol & Htile).
  unfold setWall. rewrite (bounds_check_passes _ _ _ Hx Hy), Hd, Hat.
  simpl. rewrite Hat'. simpl. rewrite Hix, Hiy.
  eexists. split; [reflexivity|]. split; [reflexivity|].
  pose proof (lookup_lt_Some _ _ _ Hcol) as Hxlt.
  pose proof (lookup_lt_Some _ _ _ Htile) as Hylt.
  split; [now apply insert_tile_shape|].
  intros x' y' d'. unfold wallAt, tileAt. simpl.
  destruct (decide (x' = Z.to_nat x)) as [->|Hx'].
  - rewrite list_lookup_insert_eq by assumption. simpl. rewrite Hcol. simpl.
    destruct (decide (y' = Z.to_nat y)) as [->|Hy'].
    + rewrite list_lookup_insert_eq by assumption. simpl. rewrite Htile. simpl.
      repeat case_decide; (reflexivity || tauto).
    + rewrite list_lookup_insert_ne by congruence.
      case_decide; [tauto | reflexivity].
  - rewrite list_lookup_insert_ne by congruence.
    case_decide; [tauto | reflexivity].
Qed.

(** X1: a call to setWall that returns leaves the grid with the columns and
    the column lengths it had: the width, the height and the rectangular
    shape are kept, whatever the arguments. *)
Theorem setWall_keeps_shape s s' x y (direction : ascii) (wallExists : bool) :
  setWall CHAR_TO_DIRECTION x y direction wallExists s = Returned s' ->
  length <$> m_basicMaze s' = length <$> m_basicMaze s
  /\ getWidth s' = getWidth s /\ getHeight s' = getHeight s
  /\ (rectangular s -> rectangular s').
Proof.
  intros Hrun.
  assert (length <$> m_basicMaze s' = length <$> m_basicMaze s) as Hshape.
  { unfold setWall in Hrun.
    destruct ((x <? 0) || (getWidth s <=? x) || (y <? 0) || (getHeight s <=? y));
      [now injection Hrun as <-|].
    destruct (CHAR_TO_DIRECTION !! direction) as [d|]; [|now injection Hrun as <-].
    destruct (MazeInterface.at_ (m_basicMaze s) x) as [column|] eqn:Hat; [|discriminate].
    simpl in Hrun.
    destruct (MazeInterface.at_ column y) as [tile|] eqn:Hat'; [|discriminate].
    simpl in Hrun. injection Hrun as <-. simpl.
    apply insert_tile_shape. now apply at_Returned. }
  split; [exact Hshape | now apply shape_determines].
Qed.

(** X2: a call to setWall that returns has done one of two things, never
    both: it printed exactly one of the two diagnostics and left the grid as
    it was, or it printed nothing, and then the coordinate had passed the
    bounds check and the character was in the table. *)
Theorem setWall_prints_or_writes s s' x y (direction : ascii) (wallExists : bool) :
  setWall CHAR_TO_DIRECTION x y direction wallExists s = Returned s' ->
  (m_basicMaze s' = m_basicMaze s
   /\ exists message,
        printed s' = printed s ++ [message]
        /\ (message = out_of_bounds_message s x y
            \/ message = unknown_direction_message direction))
  \/ (printed s' = printed s
      /\ 0 <= x < getWidth s /\ 0 <= y < getHeight s
      /\ is_Some (CHAR_TO_DIRECTION !! direction)).
Proof.
  intros Hrun. unfold setWall in Hrun.
  destruct ((x <? 0) || (getWidth s <=? x) || (y <? 0) || (getHeight s <=? y))
    eqn:Hcheck.
  { injection Hrun as <-. left. split; [reflexivity|]. eexists. split; eauto. }
  destruct (CHAR_TO_DIRECTION !! direction) as [d|] eqn:Hd.
  2:{ injection Hrun as <-. left. split; [reflexivity|]. eexists. split; eauto. }
  destruct (MazeInterface.at_ (m_basicMaze s) x) as [column|]; [|discriminate]. simpl in Hrun.
  destruct (MazeInterface.at_ column y) as [tile|]; [|discriminate]. simpl in Hrun.
  injection Hrun as <-. right. simpl.
  destruct (x <? 0) eqn:E1; [discriminate|].
  destruct (getWidth s <=? x) eqn:E2; [discriminate|].
  destruct (y <? 0) eqn:E3; [discriminate|].
  destruct (getHeight s <=? y) eqn:E4; [discriminate|].
  repeat split; (lia || eauto).
Qed.

(** X3: setWall throws exactly when the coordinate has passed the bounds
    check, the character is in the table, and the grid has no tile at (x, y),
    which happens when column x is shorter than the first column; what it
    throws is out_of_range. *)
Theorem setWall_throws_iff s x y (direction : ascii) (wallExists : bool) :
  ((exists e, setWall CHAR_TO_DIRECTION x y direction wallExists s = Threw e)
   <-> (0 <= x < getWidth s /\ 0 <= y < getHeight s
        /\ is_Some (CHAR_TO_DIRECTION !! direction)
        /\ tileAt s (Z.to_nat x) (Z.to_nat y) = None))
  /\ forall e,
       setWall CHAR_TO_DIRECTION x y direction wallExists s = Threw e ->
       e = out_of_range.
Proof.
  unfold setWall.
  destruct ((x <? 0) || (getWidth s <=? x) || (y <? 0) || (getHeight s <=? y))
    eqn:Hcheck.
  { split; [split|discriminate].
    - intros [e He]. discriminate He.
    - intros (Hx & Hy & _). rewrite (bounds_check_passes _ _ _ Hx Hy) in Hcheck.
      discriminate Hcheck. }
  assert (0 <= x < getWidth s /\ 0 <= y < getHeight s) as [Hx Hy].
  { destruct (x <? 0) eqn:E1; [discriminate|].
    destruct (getWidth s <=? x) eqn:E2; [discriminate|].
    destruct (y <? 0) eqn:E3; [discriminate|].
    destruct (getHeight s <=? y) eqn:E4; [discriminate|]. lia. }
  destruct (CHAR_TO_DIRECTION !! direction) as [d|] eqn:Hd.
  2:{ split; [split|discriminate].
      - intros [e He]. discriminate He.
      - intros (_ & _ & [d' Hd'] & _). discriminate Hd'. }
  destruct (at_checked _ _ Hx) as (column & Hat & Hcol).
  rewrite Hat. simpl.
  assert (index y = Z.to_nat y) as Hiy.
  { apply index_small. unfold getHeight in Hy.
    destruct (m_basicMaze s) as [|c l]; [lia|].
    pose proof (to_int_range (Z.of_nat (length c))). lia. }
  unfold MazeInterface.at_, tileAt. rewrite Hiy, Hcol. simpl.
  destruct (column !! Z.to_nat y) as [tile|] eqn:Htile; simpl.
  - split; [split|discriminate].
    + intros [e He]. discriminate He.
    + intros (_ & _ & _ & Hnone). discriminate Hnone.
  - split; [split|].
    + intros _. repeat split; (lia || eauto).
    + intros _. now exists out_of_range.
    + intros e He. now injection He as <-.
Qed.

(** X4: of two writes to the same flag the last one wins: in a rectangular
    grid, for a coordinate in bounds and a character of the table, setting the
    flag to one value and then to another leaves what any reader sees, the
    shape of the grid and the output as setting it to the second value alone
    does. *)
Theorem setWall_last_write_wins s x y (direction : ascii) (d : Direction)
    (first second : bool) :
  rectangular s ->
  0 <= x < getWidth s -> 0 <= y < getHeight s ->
  CHAR_TO_DIRECTION !! direction = Some d ->
  exists once twice,
    setWall CHAR_TO_DIRECTION x y direction second s = Returned once
    /\ (s1 ← setWall CHAR_TO_DIRECTION x y direction first s;
        setWall CHAR_TO_DIRECTION x y direction second s1) = Returned twice
    /\ printed twice = printed once
    /\ length <$> m_basicMaze twice = length <$> m_basicMaze once
    /\ forall (x' y' : nat) d', wallAt twice x' y' d' = wallAt once x' y' d'.
Proof.
  intros Hrect Hx Hy Hd.
  destruct (setWall_writes s x y direction d second Hrect Hx Hy Hd)
    as (once & Honce & Hp & Hs & Hr).
  destruct (setWall_writes s x y direction d first Hrect Hx Hy Hd)
    as (s1 & Hs1 & Hp1 & Hshape1 & Hr1).
  destruct (shape_determines s s1 Hshape1) as (Hw1 & Hh1 & Hrect1).
  destruct (setWall_writes s1 x y direction d second (Hrect1 Hrect)
              ltac:(now rewrite Hw1) ltac:(now rewrite Hh1) Hd)
    as (twice & Htwice & Hp2 & Hshape2 & Hr2).
  exists once, twice. rewrite Hs1. simpl.
  repeat split; try assumption; try congruence.
  intros x' y' d'. rewrite Hr2, Hr, Hr1. now case_decide.
Qed.

(** X5: writes to different flags commute: in a rectangular grid, two calls
    with coordinates in bounds and characters of the table, aimed at
    different (x, y, direction) triples, leave what any reader sees, the
    shape of the grid and the output the same in either order. *)
Theorem setWall_commutes s x1 y1 x2 y2 (c1 c2 : ascii) (d1 d2 : Direction)
    (v1 v2 : bool) :
  rectangular s ->
  0 <= x1 < getWidth s -> 0 <= y1 < getHeight s ->
  0 <= x2 < getWidth s -> 0 <= y2 < getHeight s ->
  CHAR_TO_DIRECTION !! c1 = Some d1 -> CHAR_TO_DIRECTION !! c2 = Some d2 ->
  (x1, y1, d1) <> (x2, y2, d2) ->
  exists one_two two_one,
    (s1 ← setWall CHAR_TO_DIRECTION x1 y1 c1 v1 s;
     setWall CHAR_TO_DIRECTION x2 y2 c2 v2 s1) = Returned one_two
    /\ (s2 ← setWall CHAR_TO_DIRECTION x2 y2 c2 v2 s;
        setWall CHAR_TO_DIRECTION x1 y1 c1 v1 s2) = Returned two_one
    /\ printed one_two = printed two_one
    /\ length <$> m_basicMaze one_two = length <$> m_basicMaze two_one
    /\ forall (x' y' : nat) d', wallAt one_two x' y' d' = wallAt two_one x' y' d'.
Proof.
  intros Hrect Hx1 Hy1 Hx2 Hy2 Hd1 Hd2 Hne.
  destruct (setWall_writes s x1 y1 c1 d1 v1 Hrect Hx1 Hy1 Hd1)
    as (s1 & Hs1 & Hp1 & Hshape1 & Hr1).
  destruct (setWall_writes s x2 y2 c2 d2 v2 Hrect Hx2 Hy2 Hd2)
    as (s2 & Hs2 & Hp2 & Hshape2 & Hr2).
  destruct (shape_determines s s1 Hshape1) as (Hw1 & Hh1 & Hrect1).
  destruct (shape_determines s s2 Hshape2) as (Hw2 & Hh2 & Hrect2).
  destruct (setWall_writes s1 x2 y2 c2 d2 v2 (Hrect1 Hrect)
              ltac:(now rewrite Hw1) ltac:(now rewrite Hh1) Hd2)
    as (s12 & Hs12 & Hp12 & Hshape12 & Hr12).
  destruct (setWall_writes s2 x1 y1 c1 d1 v1 (Hrect2 Hrect)
              ltac:(now rewrite Hw2) ltac:(now rewrite Hh2) Hd1)
    as (s21 & Hs21 & Hp21 & Hshape21 & Hr21).
  exists s12, s21. rewrite Hs1, Hs2. simpl.
  repeat split; try assumption; try congruence.
  intros x' y' d'. rewrite Hr12, Hr21, Hr1, Hr2.
  repeat case_decide; try reflexivity.
  exfalso. apply Hne.
  destruct_and!.
  assert (x1 = x2) by lia. assert (y1 = y2) by lia. congruence.
Qed.

(** X6: a maze without columns, or whose first column is empty, has no tile
    to write to: every call to setWall, whatever its arguments, returns with
    the grid as it was and the out-of-bounds diagnostic printed. *)
Theorem setWall_empty_maze s x y (direction : ascii) (wallExists : bool) :
  (m_basicMaze s = [] \/ exists rest, m_basicMaze s = [] :: rest) ->
  (getWidth s = 0 \/ getHeight s = 0)
  /\ setWall CHAR_TO_DIRECTION x y direction wallExists s
     = Returned {| m_basicMaze := m_basicMaze s;
                   printed := printed s ++ [out_of_bounds_message s x y] |}.
Proof.
  intros Hempty.
  assert (getWidth s = 0 \/ getHeight s = 0) as Hzero.
  { unfold getWidth, getHeight. destruct Hempty as [-> | [rest ->]];
      [left | right]; reflexivity. }
  split; [exact Hzero|]. unfold setWall.
  rewrite bounds_check_fails; [reflexivity|]. lia.
Qed.

End MazeInterfaceMore.

(** *** The further properties on the small mazes *)

Lemma setWall_keeps_shape_witness :
  exists s',
    setWall compass_codes 1 2 "n" true small_maze = Returned s'
    /\ getWidth s' = getWidth small_maze
    /\ getHeight s' = getHeight small_maze.
Proof.
  eexists. split; [reflexivity|].
  destruct (setWall_keeps_shape compass_codes small_maze _ 1 2 "n" true eq_refl)
    as (_ & Hw & Hh & _).
  split; [exact Hw | exact Hh].
Defined.

Lemma setWall_prints_or_writes_witness :
  exists s',
    setWall compass_codes (-1) 0 "n" true small_maze = Returned s'
    /\ ((m_basicMaze s' = m_basicMaze small_maze
         /\ exists message,
              printed s' = printed small_maze ++ [message]
              /\ (message = out_of_bounds_message small_maze (-1) 0
                  \/ message = unknown_direction_message "n"))
        \/ (printed s' = printed small_maze
            /\ (0 <= -1 < getWidth small_maze)%Z
            /\ (0 <= 0 < getHeight small_maze)%Z
            /\ is_Some (compass_codes !! "n"%char))).
Proof.
  eexists. split; [reflexivity|].
  exact (setWall_prints_or_writes compass_codes small_maze _ (-1) 0 "n" true
           eq_refl).
Defined.

Lemma setWall_throws_iff_witness :
  ((0 <= 1 < getWidth ragged_maze)%Z /\ (0 <= 2 < getHeight ragged_maze)%Z
   /\ is_Some (compass_codes !! "n"%char)
   /\ tileAt ragged_maze (Z.to_nat 1) (Z.to_nat 2) = None)
  /\ exists e, setWall compass_codes 1 2 "n" true ragged_maze = Threw e.
Proof.
  assert (Hside : (0 <= 1 < getWidth ragged_maze)%Z
                  /\ (0 <= 2 < getHeight ragged_maze)%Z
                  /\ is_Some (compass_codes !! "n"%char)
                  /\ tileAt ragged_maze (Z.to_nat 1) (Z.to_nat 2) = None).
  { split; [vm_compute; split; [discriminate | reflexivity]|].
    split; [vm_compute; split; [discriminate | reflexivity]|].
    split; [exists NORTH; reflexivity | reflexivity]. }
  split; [exact Hside|].
  exact (proj2 (proj1 (setWall_throws_iff compass_codes ragged_maze 1 2 "n" true))
           Hside).
Defined.

Lemma setWall_last_write_wins_witness :
  (rectangular small_maze
   /\ (0 <= 1 < getWidth small_maze)%Z /\ (0 <= 2 < getHeight small_maze)%Z
   /\ compass_codes !! "n"%char = Some NORTH)
  /\ exists once twice,
       setWall compass_codes 1 2 "n" false small_maze = Returned once
       /\ (s1 ← setWall compass_codes 1 2 "n" true small_maze;
           setWall compass_codes 1 2 "n" false s1) = Returned twice
       /\ wallAt twice 1 2 NORTH = wallAt once 1 2 NORTH.
Proof.
  assert (Hx : (0 <= 1 < getWidth small_maze)%Z)
    by (destruct small_maze_dimensions as [-> _]; lia).
  assert (Hy : (0 <= 2 < getHeight small_maze)%Z)
    by (destruct small_maze_dimensions as [_ ->]; lia).
  assert (Hd : compass_codes !! "n"%char = Some NORTH) by reflexivity.
  split; [repeat (split; [assumption || exact small_maze_rectangular|]); assumption|].
  destruct (setWall_last_write_wins compass_codes small_maze 1 2 "n" NORTH
              true false small_maze_rectangular Hx Hy Hd)
    as (once & twice & Honce & Htwice & _ & _ & Hread).
  exists once, twice. split; [exact Honce|]. split; [exact Htwice|].
  exact (Hread 1%nat 2%nat NORTH).
Defined.

Lemma setWall_commutes_witness :
  (rectangular small_maze
   /\ (0 <= 0 < getWidth small_maze)%Z /\ (0 <= 0 < getHeight small_maze)%Z
   /\ (0 <= 1 < getWidth small_maze)%Z /\ (0 <= 2 < getHeight small_maze)%Z
   /\ compass_codes !! "n"%char = Some NORTH
   /\ compass_codes !! "e"%char = Some EAST
   /\ (0%Z, 0%Z, NORTH) <> (1%Z, 2%Z, EAST))
  /\ exists one_two two_one,
       (s1 ← setWall compass_codes 0 0 "n" true small_maze;
        setWall compass_codes 1 2 "e" true s1) = Returned one_two
       /\ (s2 ← setWall compass_codes 1 2 "e" true small_maze;
           setWall compass_codes 0 0 "n" true s2) = Returned two_one
       /\ wallAt one_two 0 0 NORTH = wallAt two_one 0 0 NORTH.
Proof.
  assert (Hx1 : (0 <= 0 < getWidth small_maze)%Z)
    by (destruct small_maze_dimensions as [-> _]; lia).
  assert (Hy1 : (0 <= 0 < getHeight small_maze)%Z)
    by (destruct small_maze_dimensions as [_ ->]; lia).
  assert (Hx2 : (0 <= 1 < getWidth small_maze)%Z)
    by (destruct small_maze_dimensions as [-> _]; lia).
  assert (Hy2 : (0 <= 2 < getHeight small_maze)%Z)
    by (destruct small_maze_dimensions as [_ ->]; lia).
  assert (Hd1 : compass_codes !! "n"%char = Some NORTH) by reflexivity.
  assert (Hd2 : compass_codes !! "e"%char = Some EAST) by reflexivity.
  assert (Hdiff : (0%Z, 0%Z, NORTH) <> (1%Z, 2%Z, EAST)) by discriminate.
  split; [repeat (split; [assumption || exact small_maze_rectangular|]); assumption|].
  destruct (setWall_commutes compass_codes small_maze 0 0 1 2 "n" "e" NORTH EAST
              true true small_maze_rectangular Hx1 Hy1 Hx2 Hy2 Hd1 Hd2 Hdiff)
    as (one_two & two_one & Hfirst & Hsecond & _ & _ & Hread).
  exists one_two, two_one. split; [exact Hfirst|]. split; [exact Hsecond|].
  exact (Hread 0%nat 0%nat NORTH).
Defined.

Lemma setWall_empty_maze_witness :
  (m_basicMaze {| m_basicMaze := [] : list (list (BasicTile (Direction := Compass)));
                  printed := [] |} = []
   \/ exists rest,
        m_basicMaze {| m_basicMaze := [] : list (list (BasicTile (Direction := Compass)));
                       printed := [] |} = [] :: rest)
  /\ setWall compass_codes 0 0 "n" true {| m_basicMaze := []; printed := [] |}
     = Returned
         {| m_basicMaze := [];
            printed := [out_of_bounds_message
                          {| m_basicMaze := [] : list (list (BasicTile (Direction := Compass)));
                             printed := [] |} 0 0] |}.
Proof.
  assert (Hempty :
    m_basicMaze {| m_basicMaze := [] : list (list (BasicTile (Direction := Compass)));
                   printed := [] |} = []
    \/ exists rest,
         m_basicMaze {| m_basicMaze := [] : list (list (BasicTile (Direction := Compass)));
                        printed := [] |} = [] :: rest) by (left; reflexivity).
  split; [exact Hempty|].
  exact (proj2 (setWall_empty_maze compass_codes
                  {| m_basicMaze := []; printed := [] |} 0 0 "n" true Hempty)).
Defined.

(** * More about [TransformationMatrix] *)

Section TransformationMatrixMore.
Local Open Scope R_scope.


Lemma fadd_nan_l (a : fp) : (nan + a)%fp = nan.
Proof. now destruct a. Qed.

Lemma fadd_nan_r (a : fp) : (a + nan)%fp = nan.
Proof. now destruct a. Qed.

Lemma fmul_nan_l (a : fp) : (nan * a)%fp = nan.
Proof. now destruct a. Qed.

Lemma inf_of_sign_double (a : R) : inf_of_sign (2 * a) = inf_of_sign a.
Proof.
  unfold inf_of_sign.
  destruct (Rlt_dec 0 (2 * a)), (Rlt_dec 0 a); try lra; try reflexivity.
  destruct (Rlt_dec (2 * a) 0), (Rlt_dec a 0); try lra; reflexivity.
Qed.

(** X7: for a window whose sizes are not zero, the pixel origin goes to
    (-1, -1), the far corner of the window to (1, 1) and the middle of the
    window to (0, 0). *)
Theorem mapPixelCoordinateToOpenGlCoordinate_landmarks (windowSize : Z * Z) :
  windowSize.1 <> 0%Z -> windowSize.2 <> 0%Z ->
  mapPixelCoordinateToOpenGlCoordinate (fin 0, fin 0) windowSize
  = (fin (- 1), fin (- 1))
  /\ mapPixelCoordinateToOpenGlCoordinate
       (fin (IZR windowSize.1), fin (IZR windowSize.2)) windowSize
     = (fin 1, fin 1)
  /\ mapPixelCoordinateToOpenGlCoordinate
       (fin (IZR windowSize.1 / 2), fin (IZR windowSize.2 / 2)) windowSize
     = (fin 0, fin 0).
Proof.
  intros Hw Hh.
  rewrite !mapPixelCoordinateToOpenGlCoordinate_fin by assumption.
  apply not_0_IZR in Hw, Hh. unfold spec_ndc. cbn [fst snd].
  repeat split; f_equal; f_equal; field; assumption.
Qed.



(** X10: for a window of width zero the first OpenGL coordinate of no
    pixel is a number: it is plus infinity for a positive pixel abscissa,
    minus infinity for a negative one, and not a number at all for zero. *)
Theorem mapPixelCoordinateToOpenGlCoordinate_zero_window
    (a b : R) (windowSize : Z * Z) :
  windowSize.1 = 0%Z ->
  (mapPixelCoordinateToOpenGlCoordinate (fin a, fin b) windowSize).1
  = inf_of_sign a
  /\ forall r,
       (mapPixelCoordinateToOpenGlCoordinate (fin a, fin b) windowSize).1 <> fin r.
Proof.
  intros Hw.
  assert ((mapPixelCoordinateToOpenGlCoordinate (fin a, fin b) windowSize).1
          = inf_of_sign a) as Hvalue.
  { unfold mapPixelCoordinateToOpenGlCoordinate, of_int. cbn [fst snd fmul].
    rewrite Hw. unfold fdiv. destruct (Req_dec_T 0 0); [|contradiction].
    rewrite inf_of_sign_double. unfold inf_of_sign.
    destruct (Rlt_dec 0 a); [reflexivity|]. destruct (Rlt_dec a 0); reflexivity. }
  split; [exact Hvalue|]. intros r. rewrite Hvalue. unfold inf_of_sign.
  destruct (Rlt_dec 0 a); [discriminate|]. destruct (Rlt_dec a 0); discriminate.
Qed.



(** X13: a value that is not a number spreads: when the entry (i, k) of the
    left factor or the entry (k, j) of the right factor is NaN, the entry
    (i, j) of the product that multiply4x4Matrices returns is NaN. *)
Theorem multiply4x4Matrices_nan_spreads (left right : list fp) (i j k : nat) :
  length left = 16%nat -> length right = 16%nat ->
  (i < 4)%nat -> (j < 4)%nat -> (k < 4)%nat ->
  nth (4 * i + k) left nan = nan \/ nth (4 * k + j) right nan = nan ->
  exists product,
    multiply4x4Matrices left right = Returned product
    /\ nth (4 * i + j) product (fin 0) = nan.
Proof.
  intros Hl Hr Hi Hj Hk Hnan.
  exists (unrolled_product left right).
  split; [now apply multiply4x4Matrices_unrolled|].
  unfold unrolled_product. cbn [mbind list_bind mjoin].
  destruct i as [|[|[|[|]]]]; try lia;
  destruct j as [|[|[|[|]]]]; try lia;
  destruct k as [|[|[|[|]]]]; try lia;
  cbn in Hnan |- *;
  (destruct Hnan as [Hnan|Hnan]; rewrite Hnan;
   rewrite ?fmul_nan, ?fmul_nan_l, ?fadd_nan_r, ?fadd_nan_l; reflexivity).
Qed.




(** X16: neither builder ever fails an assertion: for all arguments, zero
    divisors included, getFullMapTransformationMatrix and
    getZoomedMapTransformationMatrix return a matrix of sixteen elements. *)
Theorem transformation_matrices_never_assert
    (wallWidth : Distance) (physicalMazeSize : R * R)
    (mapPosition mapSize windowSize : Z * Z)
    (screenPixelsPerMeter zoomedMapScale : R) (rotateZoomedMap : bool)
    (initialMouseTranslation currentMouseTranslation : Coordinate)
    (currentMouseRotation : Angle) :
  (exists matrix,
     getFullMapTransformationMatrix
       wallWidth physicalMazeSize mapPosition mapSize windowSize
     = Returned matrix /\ length matrix = 16%nat)
  /\ (exists matrix,
       getZoomedMapTransformationMatrix
         physicalMazeSize mapPosition mapSize windowSize
         screenPixelsPerMeter zoomedMapScale rotateZoomedMap
         initialMouseTranslation currentMouseTranslation currentMouseRotation
       = Returned matrix /\ length matrix = 16%nat).
Proof.
  split.
  - unfold getFullMapTransformationMatrix. cbv zeta.
    do 2 (rewrite multiply4x4Matrices_unrolled
            by (apply unrolled_product_length || reflexivity);
          rewrite bind_Returned).
    eexists. split; [reflexivity | apply unrolled_product_length].
  - unfold getZoomedMapTransformationMatrix. cbv zeta.
    rewrite multiply4x4Matrices_unrolled by reflexivity.
    rewrite bind_Returned.
    destruct rotateZoomedMap.
    + do 4 (rewrite multiply4x4Matrices_unrolled
              by (apply unrolled_product_length || reflexivity);
            rewrite bind_Returned).
      rewrite multiply4x4Matrices_unrolled
        by (apply unrolled_product_length || reflexivity).
      eexists. split; [reflexivity | apply unrolled_product_length].
    + eexists. split; [reflexivity | apply unrolled_product_length].
Qed.








(** X20: when the pixels-per-meter scale is zero, and the physical
    dimensions and window sizes are not, the zoomed-map matrix with rotation
    starts with a value that is not a number, for every heading and every
    position, while without rotation it is a matrix of numbers. *)
Theorem getZoomedMapTransformationMatrix_zero_scale_rotated
    (physicalMazeSize : R * R) (zoomedMapPosition zoomedMapSize windowSize : Z * Z)
    (screenPixelsPerMeter zoomedMapScale : R)
    (initialMouseTranslation currentMouseTranslation : Coordinate)
    (currentMouseRotation : Angle) :
  physicalMazeSize.1 <> 0 -> physicalMazeSize.2 <> 0 ->
  windowSize.1 <> 0%Z -> windowSize.2 <> 0%Z ->
  screenPixelsPerMeter * zoomedMapScale = 0 ->
  (exists rest,
     getZoomedMapTransformationMatrix
       physicalMazeSize zoomedMapPosition zoomedMapSize windowSize
       screenPixelsPerMeter zoomedMapScale true
       initialMouseTranslation currentMouseTranslation currentMouseRotation
     = Returned (nan :: rest))
  /\ (exists camera,
       getZoomedMapTransformationMatrix
         physicalMazeSize zoomedMapPosition zoomedMapSize windowSize
         screenPixelsPerMeter zoomedMapScale false
         initialMouseTranslation currentMouseTranslation currentMouseRotation
       = Returned (finite camera)).
Proof.
  intros Hpw Hph Hww Hwh Hscale.
  split; [|eexists; now apply getZoomedMapTransformationMatrix_camera].
  assert ((spec_ndcPerMeter (screenPixelsPerMeter * zoomedMapScale)
             physicalMazeSize windowSize).1 = 0
          /\ (spec_ndcPerMeter (screenPixelsPerMeter * zoomedMapScale)
                physicalMazeSize windowSize).2 = 0) as [Hhs Hvs].
  { rewrite spec_ndcPerMeter_value by assumption. cbn [fst snd].
    rewrite Hscale. apply not_0_IZR in Hww, Hwh. split; field; assumption. }
  unfold getZoomedMapTransformationMatrix, of_int, static_cast_float.
  cbv zeta.
  cbn [fmul fadd fsub fneg Coordinate_minus getX getY getMeters std_cos std_sin].
  rewrite !mapPixelCoordinateToOpenGlCoordinate_fin by assumption.
  cbn [fst snd fmul fadd fsub fneg].
  rewrite !(fdiv_fin _ physicalMazeSize.1), !(fdiv_fin _ physicalMazeSize.2)
    by assumption.
  repeat match goal with
  | |- context [(fin 1 / fin ?E)%fp] =>
      (replace E with 0 by (symmetry; exact Hhs))
      || (replace E with 0 by (symmetry; exact Hvs))
  end.
  rewrite !fdiv_zero by lra.
  do 6 (rewrite multiply4x4Matrices_unrolled
          by (apply unrolled_product_length || reflexivity);
        rewrite ?bind_Returned).
  match goal with
  | |- exists rest, Returned ?product = _ =>
      destruct (unrolled_product_head _ _ : nth 0 product nan = nan -> _)
        as [rest ->]; [|now exists rest]
  end.
  do 3 apply unrolled_product_nan.
  cbn. rewrite inf_of_sign_zero by ring. reflexivity.
Qed.

(** X21: when the physical width of the maze is zero and the window width
    is not, the full-map matrix starts with a value that is not a number,
    whatever the other arguments. *)
Theorem getFullMapTransformationMatrix_zero_width
    (wallWidth : Distance) (physicalMazeSize : R * R)
    (fullMapPosition fullMapSize windowSize : Z * Z) :
  physicalMazeSize.1 = 0 -> windowSize.1 <> 0%Z ->
  exists rest,
    getFullMapTransformationMatrix
      wallWidth physicalMazeSize fullMapPosition fullMapSize windowSize
    = Returned (nan :: rest).
Proof.
  intros Hpw Hww. apply not_0_IZR in Hww.
  unfold getFullMapTransformationMatrix, static_cast_float. cbv zeta.
  rewrite Hpw.
  set (pixelsPerMeter := std_min _ _).
  do 2 (rewrite multiply4x4Matrices_unrolled
          by (apply unrolled_product_length || reflexivity);
        rewrite bind_Returned).
  match goal with
  | |- exists rest, Returned ?product = _ =>
      destruct (unrolled_product_head _ _ : nth 0 product nan = nan -> _)
        as [rest ->]; [|now exists rest]
  end.
  apply unrolled_product_nan.
  unfold mapPixelCoordinateToOpenGlCoordinate, of_int. cbn [fst snd].
  destruct pixelsPerMeter as [x| | |]; cbn.
  - unfold fdiv. destruct (Req_dec_T (IZR windowSize.1) 0); [contradiction|].
    cbn. destruct (Req_dec_T 0 0); [|contradiction].
    rewrite inf_of_sign_zero by (field; assumption). reflexivity.
  - rewrite inf_of_sign_zero by reflexivity. reflexivity.
  - rewrite inf_of_sign_zero by ring. reflexivity.
  - reflexivity.
Qed.

(** *** The further properties on concrete windows and mazes *)

Lemma mapPixelCoordinateToOpenGlCoordinate_landmarks_witness :
  ((800%Z, 600%Z).1 <> 0%Z /\ (800%Z, 600%Z).2 <> 0%Z)
  /\ mapPixelCoordinateToOpenGlCoordinate (fin 0, fin 0) (800%Z, 600%Z)
     = (fin (- 1), fin (- 1)).
Proof.
  assert (Hww : (800%Z, 600%Z).1 <> 0%Z) by discriminate.
  assert (Hwh : (800%Z, 600%Z).2 <> 0%Z) by discriminate.
  split; [now split|].
  exact (proj1 (mapPixelCoordinateToOpenGlCoordinate_landmarks
                  (800%Z, 600%Z) Hww Hwh)).
Defined.



Lemma mapPixelCoordinateToOpenGlCoordinate_zero_window_witness :
  (0%Z, 600%Z).1 = 0%Z
  /\ (mapPixelCoordinateToOpenGlCoordinate (fin 5, fin 300) (0%Z, 600%Z)).1
     = inf_of_sign 5.
Proof.
  split; [reflexivity|].
  exact (proj1 (mapPixelCoordinateToOpenGlCoordinate_zero_window
                  5 300 (0%Z, 600%Z) eq_refl)).
Defined.



Lemma multiply4x4Matrices_nan_spreads_witness :
  (length (nan :: finite [0; 0; 0; 0; 0; 0; 0; 0; 0; 0; 0; 0; 0; 0; 0]) = 16%nat
   /\ length (finite spec_Identity) = 16%nat
   /\ (0 < 4)%nat
   /\ nth (4 * 0 + 0)
        (nan :: finite [0; 0; 0; 0; 0; 0; 0; 0; 0; 0; 0; 0; 0; 0; 0]) nan = nan)
  /\ exists product,
       multiply4x4Matrices
         (nan :: finite [0; 0; 0; 0; 0; 0; 0; 0; 0; 0; 0; 0; 0; 0; 0])
         (finite spec_Identity)
       = Returned product
       /\ nth (4 * 0 + 0) product (fin 0) = nan.
Proof.
  assert (Hlt : (0 < 4)%nat) by lia.
  split; [repeat split; (reflexivity || exact Hlt)|].
  exact (multiply4x4Matrices_nan_spreads
           (nan :: finite [0; 0; 0; 0; 0; 0; 0; 0; 0; 0; 0; 0; 0; 0; 0])
           (finite spec_Identity) 0 0 0 eq_refl eq_refl Hlt Hlt Hlt
           (or_introl eq_refl)).
Defined.






Lemma getZoomedMapTransformationMatrix_zero_scale_rotated_witness :
  ((2, 3).1 <> 0 /\ (2, 3).2 <> 0
   /\ (800%Z, 600%Z).1 <> 0%Z /\ (800%Z, 600%Z).2 <> 0%Z
   /\ 100 * 0 = 0)
  /\ exists rest,
       getZoomedMapTransformationMatrix
         (2, 3) (10%Z, 20%Z) (300%Z, 200%Z) (800%Z, 600%Z) 100 0 true
         (Cartesian (Meters 0.5) (Meters 1.5)) (Cartesian (Meters 0.75) (Meters 1))
         (Degrees 30)
       = Returned (nan :: rest).
Proof.
  assert (Hpw : (2, 3).1 <> 0) by (cbn; lra).
  assert (Hph : (2, 3).2 <> 0) by (cbn; lra).
  assert (Hww : (800%Z, 600%Z).1 <> 0%Z) by discriminate.
  assert (Hwh : (800%Z, 600%Z).2 <> 0%Z) by discriminate.
  assert (Hscale : 100 * 0 = 0) by lra.
  split; [now repeat split|].
  exact (proj1 (getZoomedMapTransformationMatrix_zero_scale_rotated
                  (2, 3) (10%Z, 20%Z) (300%Z, 200%Z) (800%Z, 600%Z) 100 0
                  (Cartesian (Meters 0.5) (Meters 1.5))
                  (Cartesian (Meters 0.75) (Meters 1))
                  (Degrees 30) Hpw Hph Hww Hwh Hscale)).
Defined.

Lemma getFullMapTransformationMatrix_zero_width_witness :
  ((0, 3).1 = 0 /\ (800%Z, 600%Z).1 <> 0%Z)
  /\ exists rest,
       getFullMapTransformationMatrix
         (Meters 0.012) (0, 3) (10%Z, 20%Z) (300%Z, 200%Z) (800%Z, 600%Z)
       = Returned (nan :: rest).
Proof.
  assert (Hpw : (0, 3).1 = 0) by reflexivity.
  assert (Hww : (800%Z, 600%Z).1 <> 0%Z) by discriminate.
  split; [now split|].
  exact (getFullMapTransformationMatrix_zero_width
           (Meters 0.012) (0, 3) (10%Z, 20%Z) (300%Z, 200%Z) (800%Z, 600%Z)
           Hpw Hww).
Defined.

End TransformationMatrixMore.
